(** * ThingworxVSCodeDebugger: the debug adapter session

    A shallow embedding of [src/thingworxDebug.ts] (class
    [ThingworxDebugSession]) and the properties of its request handlers,
    its attach handshake and its push-event dispatch.

    The adapter is JavaScript: the values that cross its two wire formats
    are dynamically typed, property reads on [undefined] raise a
    [TypeError], and a handler that awaits a remote call that never settles
    simply never resumes.  The embedding keeps all three: values are a
    small universe of JavaScript values, handlers live in a monad with
    exceptions and suspension, and every externally visible effect is
    appended to a trace. *)

From Stdlib Require Import ZArith List String Ascii Bool Lia.
From stdpp Require Import gmap strings pretty.

Set Warnings "-register-all".

Open Scope string_scope.
Open Scope Z_scope.

(** ** JavaScript values *)

Module JS.

(** The values [JSON.parse] produces, plus [undefined].  Numbers are
    integers: every numeric field of the two protocols is an identifier, a
    line, a column or a count.  An object is the list of its own
    properties, first binding wins. *)
Inductive value : Type :=
| VUndefined
| VNull
| VBool (b : bool)
| VNum (n : Z)
| VStr (s : string)
| VArr (items : list value)
| VObj (fields : list (string * value)).

Definition of_option (o : option value) : value :=
  match o with Some v => v | None => VUndefined end.

Definition num_opt (o : option Z) : value :=
  match o with Some n => VNum n | None => VUndefined end.

Definition str_opt (o : option string) : value :=
  match o with Some s => VStr s | None => VUndefined end.

Definition bool_opt (o : option bool) : value :=
  match o with Some b => VBool b | None => VUndefined end.

(** Own-property lookup in a property list. *)
Fixpoint lookup_field (k : string) (fields : list (string * value)) : option value :=
  match fields with
  | [] => None
  | (k', v) :: rest => if String.eqb k k' then Some v else lookup_field k rest
  end.

(** [o.k = v] on a property list: overwrite in place, or add at the end. *)
Fixpoint assign_field (k : string) (v : value) (fields : list (string * value))
  : list (string * value) :=
  match fields with
  | [] => [(k, v)]
  | (k', v') :: rest =>
      if String.eqb k k' then (k, v) :: rest else (k', v') :: assign_field k v rest
  end.

(** [v.k] for the property names the adapter reads.  [None] is the
    [TypeError] of reading a property of [undefined] or [null].  None of
    those names is defined on the prototype of a string, number, boolean,
    array or plain object, so everything but an own property reads as
    [undefined]. *)
Definition get (v : value) (k : string) : option value :=
  match v with
  | VUndefined | VNull => None
  | VObj fields => Some (of_option (lookup_field k fields))
  | _ => Some VUndefined
  end.

(** ToBoolean. *)
Definition truthy (v : value) : bool :=
  match v with
  | VUndefined | VNull => false
  | VBool b => b
  | VNum n => negb (n =? 0)
  | VStr s => negb (String.eqb s "")
  | VArr _ | VObj _ => true
  end.

(** [a || b]. *)
Definition or_else (a b : value) : value := if truthy a then a else b.

Definition chars (s : string) : list value :=
  map (fun c => VStr (String c EmptyString)) (list_ascii_of_string s).

(** The elements a [for ... of] loop visits; [None] when the value is not
    iterable.  A string iterates over its characters. *)
Definition iterate (v : value) : option (list value) :=
  match v with
  | VArr items => Some items
  | VStr s => Some (chars s)
  | _ => None
  end.

(** [v[0]]. *)
Definition index0 (v : value) : option value :=
  match v with
  | VUndefined | VNull => None
  | VArr items => Some (of_option (head items))
  | VStr s => Some (of_option (head (chars s)))
  | VObj fields => Some (of_option (lookup_field "0" fields))
  | _ => Some VUndefined
  end.

(** [v.length]. *)
Definition length_of (v : value) : option value :=
  match v with
  | VUndefined | VNull => None
  | VArr items => Some (VNum (Z.of_nat (length items)))
  | VStr s => Some (VNum (Z.of_nat (String.length s)))
  | VObj fields => Some (of_option (lookup_field "length" fields))
  | _ => Some VUndefined
  end.

(** ToString, as used by string concatenation, template literals and
    property keys.  Inside [Array.prototype.join], [undefined] and [null]
    print as the empty string.  An integer is written with all its digits,
    as JavaScript writes it below 10^21. *)
Fixpoint to_string (v : value) : string :=
  match v with
  | VUndefined => "undefined"
  | VNull => "null"
  | VBool true => "true"
  | VBool false => "false"
  | VNum n => pretty n
  | VStr s => s
  | VArr items =>
      String.concat ","
        ((fix each (l : list value) : list string :=
            match l with
            | [] => []
            | VUndefined :: l' => "" :: each l'
            | VNull :: l' => "" :: each l'
            | x :: l' => to_string x :: each l'
            end) items)
  | VObj _ => "[object Object]"
  end.

(** [n.toFixed()]: defined on numbers only; a [TypeError] elsewhere.  The
    integer is written with all its digits, as JavaScript writes it below
    10^21. *)
Definition toFixed (v : value) : option string :=
  match v with
  | VNum n => Some (pretty n)
  | _ => None
  end.

(** [n | 0]: ToInt32. *)
Definition to_int32 (n : Z) : Z := (n + 2 ^ 31) mod 2 ^ 32 - 2 ^ 31.

(** [c.toUpperCase()] on one character.  Paths are modelled over ASCII;
    a character outside [a-z] is left as it is. *)
Definition toUpperCase (c : ascii) : ascii :=
  let n := nat_of_ascii c in
  if (97 <=? n)%nat && (n <=? 122)%nat then ascii_of_nat (n - 32) else c.

(** [s.replace(/\\/g, '/')]. *)
Fixpoint replace_backslashes (s : string) : string :=
  match s with
  | EmptyString => EmptyString
  | String c rest =>
      String (if Ascii.eqb c "\" then "/"%char else c) (replace_backslashes rest)
  end.

(** The last element of [s.split(sep)] for a one-character separator. *)
Fixpoint last_component (sep : ascii) (s : string) : string :=
  match s with
  | EmptyString => EmptyString
  | String c rest =>
      if Ascii.eqb c sep then last_component sep rest
      else if existsb (Ascii.eqb sep) (list_ascii_of_string rest)
           then last_component sep rest
           else s
  end.

End JS.

Import JS.

(** ** The adapter's environment and state *)

(** What the adapter gets from the node.js host: [process.platform],
    [path.sep], [path.normalize], and the outcome of [new WebSocket(address)]:
    the constructor returns a socket, or it throws on an address it does
    not accept (one it cannot parse, such as an address whose port is
    outside 0..65535). *)
Record Host := {
  platform : string;
  path_sep : ascii;
  path_normalize : string -> string;
  websocket_accepts : string -> bool
}.

(** What [request.post] hands to its callback in [invokeService]: nothing
    at all, an [err], or a response with a status code and a body, given
    here by the outcome of [JSON.parse] on it ([None]: a [SyntaxError]). *)
Inductive HttpReply :=
| NoReply
| TransportError
| HttpResponse (statusCode : Z) (parsed : option value).

(** The debug server, as seen through [request.post]: a reply for every
    URL and argument object. *)
Definition Target := string -> value -> HttpReply.

Inductive Promise :=
| Fulfilled (v : value)
| Rejected
| Pending.

(** The response object a handler receives; [sendResponse] sends it as it
    is, [sendErrorResponse] sends it with the given message. *)
Record Response := {
  request_seq : Z;
  body : value
}.

Record Message := {
  msg_id : Z;
  format : string;
  showUser : bool
}.

(** The events the adapter constructs, with the arguments it passes to
    their constructors. *)
Inductive Event :=
| InitializedEvent
| StoppedEvent (reason threadId exceptionText : value)
| ContinuedEvent (threadId : value) (allThreadsContinued : bool)
| LogOutputEvent (msg : string) (level : value).

(** Everything a handler does that is visible outside the session. *)
Inductive Action :=
| SendResponse (r : Response)
| SendErrorResponse (r : Response) (m : Message)
| SendEvent (e : Event)
| Invoke (name : string) (args : value)
| NewWebSocket (id : nat) (url : string)
| SocketSend (id : nat) (data : value)
| SocketClose (id : nat)
| LoggerSetup (verbose : bool)
| ConsoleLog (line : string).

(** The callbacks [attachRequest] installs on its socket.  Each closure
    is represented by its code and the variables it captured. *)
Inductive MessageHandler :=
| NoMessageHandler
| AttachHandshake (response : Response)
| DidRecieveMessage.

Inductive OpenHandler :=
| NoOpenHandler
| Authenticate (thingworxAppKey : string).

Inductive ErrorHandler :=
| NoErrorHandler
| AttachFailed (response : Response)
| IgnoreError.

Record WebSocket := {
  ws_url : string;
  onmessage : MessageHandler;
  onopen : OpenHandler;
  onerror : ErrorHandler;
  ws_closed : bool
}.

(** The fields of [ThingworxDebugSession], and the sockets it has created
    ([_websocket] refers to one of them by its position). *)
Record Session := {
  _websocket : option nat;
  appKey : option string;
  domain : option string;
  port : option string;
  useSSL : option bool;
  _cancellationTokens : gmap Z bool;
  _scopeThreadMapping : gmap string Z;
  sockets : list WebSocket
}.

Definition new_session : Session :=
  {| _websocket := None; appKey := None; domain := None; port := None;
     useSSL := None; _cancellationTokens := ∅; _scopeThreadMapping := ∅;
     sockets := [] |}.

Definition with_websocket (w : option nat) (s : Session) : Session :=
  {| _websocket := w; appKey := appKey s; domain := domain s; port := port s;
     useSSL := useSSL s; _cancellationTokens := _cancellationTokens s;
     _scopeThreadMapping := _scopeThreadMapping s; sockets := sockets s |}.

Definition with_connection (d p : string) (ssl : bool) (k : string) (s : Session)
  : Session :=
  {| _websocket := _websocket s; appKey := Some k; domain := Some d;
     port := Some p; useSSL := Some ssl;
     _cancellationTokens := _cancellationTokens s;
     _scopeThreadMapping := _scopeThreadMapping s; sockets := sockets s |}.

Definition with_cancellationTokens (m : gmap Z bool) (s : Session) : Session :=
  {| _websocket := _websocket s; appKey := appKey s; domain := domain s;
     port := port s; useSSL := useSSL s; _cancellationTokens := m;
     _scopeThreadMapping := _scopeThreadMapping s; sockets := sockets s |}.

Definition with_scopeThreadMapping (m : gmap string Z) (s : Session) : Session :=
  {| _websocket := _websocket s; appKey := appKey s; domain := domain s;
     port := port s; useSSL := useSSL s;
     _cancellationTokens := _cancellationTokens s;
     _scopeThreadMapping := m; sockets := sockets s |}.

Definition with_sockets (l : list WebSocket) (s : Session) : Session :=
  {| _websocket := _websocket s; appKey := appKey s; domain := domain s;
     port := port s; useSSL := useSSL s;
     _cancellationTokens := _cancellationTokens s;
     _scopeThreadMapping := _scopeThreadMapping s; sockets := l |}.

Definition with_onmessage (h : MessageHandler) (w : WebSocket) : WebSocket :=
  {| ws_url := ws_url w; onmessage := h; onopen := onopen w;
     onerror := onerror w; ws_closed := ws_closed w |}.

Definition with_onopen (h : OpenHandler) (w : WebSocket) : WebSocket :=
  {| ws_url := ws_url w; onmessage := onmessage w; onopen := h;
     onerror := onerror w; ws_closed := ws_closed w |}.

Definition with_onerror (h : ErrorHandler) (w : WebSocket) : WebSocket :=
  {| ws_url := ws_url w; onmessage := onmessage w; onopen := onopen w;
     onerror := h; ws_closed := ws_closed w |}.

Definition with_closed (w : WebSocket) : WebSocket :=
  {| ws_url := ws_url w; onmessage := onmessage w; onopen := onopen w;
     onerror := onerror w; ws_closed := true |}.

(** ** The handler monad *)

(** How a handler body ends: it runs to its end, it throws, or it is
    parked at an [await] whose promise never settles. *)
Inductive completion (A : Type) :=
| Normal (a : A)
| Throw
| Suspend.
Arguments Normal {A} a.
Arguments Throw {A}.
Arguments Suspend {A}.

(** A running handler: the session ([this]), the response object it was
    given, and the actions performed so far, oldest first. *)
Record Frame := {
  this : Session;
  response : Response;
  trace : list Action
}.

Definition M (A : Type) : Type := Frame -> completion A * Frame.

#[export] Instance M_ret : MRet M := fun A a f => (Normal a, f).

#[export] Instance M_bind : MBind M := fun A B k m f =>
  match m f with
  | (Normal a, f') => k a f'
  | (Throw, f') => (Throw, f')
  | (Suspend, f') => (Suspend, f')
  end.

Definition throw {A} : M A := fun f => (Throw, f).

(** [try { m } catch (e) { h }]: a suspended body stays suspended. *)
Definition try_catch {A} (m h : M A) : M A := fun f =>
  match m f with
  | (Throw, f') => h f'
  | r => r
  end.

(** [await m], for a call [m] that returns a promise. *)
Definition await (m : M Promise) : M value := fun f =>
  match m f with
  | (Normal (Fulfilled v), f') => (Normal v, f')
  | (Normal Rejected, f') => (Throw, f')
  | (Normal Pending, f') => (Suspend, f')
  | (Throw, f') => (Throw, f')
  | (Suspend, f') => (Suspend, f')
  end.

(** A partial JavaScript operation: [None] is the [TypeError]. *)
Definition lift {A} (o : option A) : M A :=
  match o with Some a => mret a | None => throw end.

Definition emit (a : Action) : M unit := fun f =>
  (Normal tt, {| this := this f; response := response f; trace := trace f ++ [a] |}).

Definition get_this : M Session := fun f => (Normal (this f), f).

Definition modify_this (g : Session -> Session) : M unit := fun f =>
  (Normal tt, {| this := g (this f); response := response f; trace := trace f |}).

Definition get_response : M Response := fun f => (Normal (response f), f).

Definition set_body (b : value) : M unit := fun f =>
  (Normal tt,
   {| this := this f;
      response := {| request_seq := request_seq (response f); body := b |};
      trace := trace f |}).

Fixpoint each {A} (k : A -> M unit) (l : list A) : M unit :=
  match l with
  | [] => mret tt
  | x :: l' => k x ;; each k l'
  end.

(** [for (const x of v) { k x }]. *)
Definition for_of (v : value) (k : value -> M unit) : M unit :=
  items ← lift (iterate v); each k items.

(** [response.body = response.body || d]. *)
Definition body_default (d : value) : M unit :=
  r ← get_response; set_body (or_else (body r) d).

(** [response.body.k = v].  The body is a plain object wherever the
    adapter assigns into it; on [undefined] or [null] this is a
    [TypeError], and on a primitive it is one too (strict mode). *)
Definition set_field (k : string) (v : value) : M unit :=
  r ← get_response;
  match body r with
  | VObj fields => set_body (VObj (assign_field k v fields))
  | _ => throw
  end.

Definition get_field (k : string) : M value :=
  r ← get_response; lift (get (body r) k).

(** [response.body.k = response.body.k || d]. *)
Definition field_default (k : string) (d : value) : M unit :=
  v ← get_field k; set_field k (or_else v d).

(** [response.body.k.push(x)]. *)
Definition push_field (k : string) (x : value) : M unit :=
  v ← get_field k;
  match v with
  | VArr items => set_field k (VArr (items ++ [x]))
  | _ => throw
  end.

(** [this.sendResponse(response)]. *)
Definition sendResponse : M unit :=
  r ← get_response; emit (SendResponse r).

(** [this.sendErrorResponse(response, {id: 0, format, showUser: true})]. *)
Definition sendErrorResponse (fmt : string) : M unit :=
  r ← get_response;
  emit (SendErrorResponse r {| msg_id := 0; format := fmt; showUser := true |}).

Definition sendEvent (e : Event) : M unit := emit (SendEvent e).

(** The object literal [{k1: row.f1, ..., kn: row.fn}]. *)
Fixpoint project (row : value) (keys : list (string * string))
  : option (list (string * value)) :=
  match keys with
  | [] => Some []
  | (k, f) :: rest =>
      match get row f, project row rest with
      | Some v, Some fields => Some ((k, v) :: fields)
      | _, _ => None
      end
  end.

(** ** The session's methods *)

(** [DebugProtocol.Source], as far as the adapter looks into it. *)
Record Source := {
  src_name : option string;
  src_path : option string
}.

Definition source_value (s : Source) : value :=
  VObj [("name", str_opt (src_name s)); ("path", str_opt (src_path s))].

Record AttachRequestArguments := {
  thingworxDomain : string;
  args_useSSL : bool;
  thingworxAppKey : string;
  thingworxPort : Z
}.

Definition unable_to_process : string := "Unable to process request".
Definition unsupported_operation : string := "Unsupported operation".

Section Adapter.

Variable host : Host.
Variable target : Target.

(** The promise [invokeService] returns, from what [request.post] reports:
    rejected on [err], on a status other than 200 and on a body that does
    not parse; never settled when the callback never runs. *)
Definition settle (reply : HttpReply) : Promise :=
  match reply with
  | NoReply => Pending
  | TransportError => Rejected
  | HttpResponse statusCode parsed =>
      if negb (statusCode =? 200) then Rejected
      else match parsed with
           | Some v => Fulfilled v
           | None => Rejected
           end
  end.

Definition service_url (s : Session) (name : string) : string :=
  (if truthy (bool_opt (useSSL s)) then "https" else "http") +:+ "://"
  +:+ to_string (str_opt (domain s)) +:+ ":" +:+ to_string (str_opt (port s))
  +:+ "/Thingworx/Things/BMDebugServer/Services/" +:+ name.

(** [this.invokeService(name, args)].  Being [async] it never throws; the
    POST is issued before it returns its promise. *)
Definition invokeService (name : string) (args : value) : M Promise :=
  s ← get_this;
  emit (Invoke name args);;
  mret (settle (target (service_url s name) args)).

Definition capabilities : list (string * value) :=
  [ ("supportsConfigurationDoneRequest", VBool true);
    ("supportsEvaluateForHovers", VBool true);
    ("supportsStepBack", VBool false);
    ("supportsDataBreakpoints", VBool false);
    ("supportsCompletionsRequest", VBool true);
    ("completionTriggerCharacters", VArr [VStr "."; VStr "["]);
    ("supportsCancelRequest", VBool false);
    ("supportsBreakpointLocationsRequest", VBool true);
    ("supportsStepInTargetsRequest", VBool false);
    ("supportsExceptionFilterOptions", VBool true);
    ("exceptionBreakpointFilters", VArr [
       VObj [ ("filter", VStr "exceptions");
              ("label", VStr "All Exceptions");
              ("description", VStr "Break when errors are thrown or when a function exits as a result of an error being thrown.");
              ("default", VBool false);
              ("supportsCondition", VBool false);
              ("conditionDescription", VStr "Enter the exception's name") ];
       VObj [ ("filter", VStr "caughtExceptions");
              ("label", VStr "Caught Exceptions");
              ("description", VStr "Break when errors are thrown or when a function exits as a result of an error being thrown and that error is caught.");
              ("default", VBool false);
              ("supportsCondition", VBool false);
              ("conditionDescription", VStr "Enter the exception's name") ];
       VObj [ ("filter", VStr "uncaughtExceptions");
              ("label", VStr "Uncaught Exceptions");
              ("description", VStr "Break when errors are thrown or when a function exits as a result of an error being thrown and that error is not caught.");
              ("default", VBool false);
              ("supportsCondition", VBool false);
              ("conditionDescription", VStr "Enter the exception's name") ] ]);
    ("supportsExceptionInfoRequest", VBool true);
    ("supportsSetVariable", VBool true);
    ("supportsSetExpression", VBool true);
    ("supportsDisassembleRequest", VBool false);
    ("supportsSteppingGranularity", VBool false);
    ("supportsInstructionBreakpoints", VBool false) ].

(** The arguments of [initialize] are read but nothing depends on them. *)
Definition initializeRequest : M unit :=
  body_default (VObj []);;
  each (fun kv => set_field (fst kv) (snd kv)) capabilities;;
  sendResponse;;
  sendEvent InitializedEvent.

(** [super.configurationDoneRequest] sends the response; nothing waits on
    the [_configurationDone] subject that is notified afterwards. *)
Definition configurationDoneRequest : M unit :=
  sendResponse.

(** [new WebSocket(url)].  Where the constructor throws there is no
    socket. *)
Definition new_websocket (url : string) : M nat :=
  if websocket_accepts host url then
    s ← get_this;
    let id := length (sockets s) in
    modify_this (with_sockets (sockets s ++
      [{| ws_url := url; onmessage := NoMessageHandler; onopen := NoOpenHandler;
          onerror := NoErrorHandler; ws_closed := false |}]));;
    emit (NewWebSocket id url);;
    mret id
  else throw.

Definition update_socket (id : nat) (g : WebSocket -> WebSocket) : M unit :=
  modify_this (fun s => with_sockets (alter g id (sockets s)) s).

(** [websocket.close()]. *)
Definition socket_close (id : nat) : M unit :=
  update_socket id with_closed;;
  emit (SocketClose id).

(** [this._websocket?.close()]. *)
Definition close_own_websocket : M unit :=
  s ← get_this;
  match _websocket s with
  | Some id => socket_close id
  | None => mret tt
  end.

Definition attachRequest (args : AttachRequestArguments) : M unit :=
  modify_this (with_connection (thingworxDomain args) (pretty (thingworxPort args))
                 (args_useSSL args) (thingworxAppKey args));;
  let protocol := if args_useSSL args then "wss" else "ws" in
  websocket ← new_websocket
    (protocol +:+ "://" +:+ thingworxDomain args +:+ ":"
     +:+ pretty (to_int32 (thingworxPort args)) +:+ "/Thingworx/ThingworxDebugger");
  modify_this (with_websocket (Some websocket));;
  r ← get_response;
  update_socket websocket (with_onmessage (AttachHandshake r));;
  update_socket websocket (with_onopen (Authenticate (thingworxAppKey args)));;
  update_socket websocket (with_onerror (AttachFailed r)).

(** The [onmessage] callback installed by [attachRequest]; [websocket] is
    the socket it closed over, [data] the outcome of [JSON.parse(e.data)],
    and the frame's response is the attach response. *)
Definition attach_onmessage (websocket : nat) (data : option value) : M unit :=
  try_catch
    (socketResponse ← lift data;
     authenticated ← lift (get socketResponse "authenticated");
     (if truthy authenticated then
        try_catch
          (invokeService "connectDebugger" (VObj []);;
           sendResponse)
          (close_own_websocket;;
           sendErrorResponse unable_to_process)
      else mret tt);;
     update_socket websocket (with_onmessage DidRecieveMessage);;
     update_socket websocket (with_onerror IgnoreError))
    (socket_close websocket;;
     modify_this (with_websocket None);;
     sendErrorResponse unable_to_process).

(** The [onopen] callback. *)
Definition attach_onopen (websocket : nat) (key : string) : M unit :=
  emit (SocketSend websocket (VObj [("appKey", VStr key)])).

(** The first [onerror] callback. *)
Definition attach_onerror (message : string) : M unit :=
  sendErrorResponse message.

Definition disconnectRequest : M unit :=
  try_catch
    (invokeService "disconnectDebugger" (VObj []);;
     close_own_websocket)
    (sendErrorResponse "Unable to disconnect").

(** [v === 's'], the comparison a [switch] makes against a string case. *)
Definition strict_equals (v : value) (s : string) : bool :=
  match v with
  | VStr x => String.eqb x s
  | _ => false
  end.

(** [data] is the outcome of [JSON.parse(event.data)].  A parse failure
    is caught and leaves [message] undefined. *)
Definition _didRecieveMessageWithEvent (data : option value) : M unit :=
  message ← try_catch (lift data) (mret VUndefined);
  name ← lift (get message "name");
  if strict_equals name "suspended" then
    reason ← lift (get message "reason");
    threadID ← lift (get message "threadID");
    exception ← lift (get message "exception");
    sendEvent (StoppedEvent reason threadID exception)
  else if strict_equals name "resumed" then
    threadID ← lift (get message "threadID");
    sendEvent (ContinuedEvent threadID false)
  else if strict_equals name "log" then
    text ← lift (get message "body");
    level ← lift (get message "level");
    sendEvent (LogOutputEvent (to_string text +:+ String "010" "") level)
  else mret tt.

Definition launchRequest (trace : option bool) : M unit :=
  sendErrorResponse "Launch request not supported";;
  emit (LoggerSetup (truthy (bool_opt trace))).

(** The statements shared by [setBreakPointsRequest] and
    [breakpointLocationsRequest]:
    [if (process.platform == 'win32')
       path = path[0].toUpperCase() + path.substring(1).replace(/\\/g, '/')].
    [None] is the [TypeError] raised when [path] is [undefined] or empty. *)
Definition normalize_path (path : option string) : option (option string) :=
  if String.eqb (platform host) "win32" then
    match path with
    | Some (String c rest) =>
        Some (Some (String (toUpperCase c) (replace_backslashes rest)))
    | Some EmptyString => None
    | None => None
    end
  else Some path.

Definition breakpoints_value (breakpoints : option (list value)) : value :=
  match breakpoints with
  | Some l => VArr l
  | None => VArr []
  end.

Definition setBreakPointsRequest (source : Source) (breakpoints : option (list value))
  : M unit :=
  try_catch
    (path ← lift (normalize_path (src_path source));
     result ← await (invokeService "setBreakpointsForFile"
       (VObj [("path", str_opt path);
              ("breakpoints", VObj [("breakpoints", breakpoints_value breakpoints)])]));
     body_default (VObj [("breakpoints", VArr [])]);;
     field_default "breakpoints" (VArr []);;
     rows ← lift (get result "rows");
     for_of rows (fun row =>
       fields ← lift (project row
         [("verified", "verified"); ("column", "column"); ("endColumn", "endColumn");
          ("endLine", "endLine"); ("id", "sequenceID"); ("line", "line");
          ("message", "message")]);
       push_field "breakpoints" (VObj (fields ++ [("source", source_value source)])));;
     sendResponse)
    (sendErrorResponse unable_to_process).

Definition breakpointLocationsRequest (source : Source) (line : Z)
    (column endLine endColumn : option Z) : M unit :=
  if truthy (str_opt (src_path source)) then
    try_catch
      (path ← lift (normalize_path (src_path source));
       emit (ConsoleLog ("Getting breakpoints at path " +:+ to_string (str_opt path)));;
       locations ← await (invokeService "getBreakpointLocationsInFile"
         (VObj [("path", str_opt path); ("line", VNum line);
                ("column", num_opt column); ("endLine", num_opt endLine);
                ("endColumn", num_opt endColumn)]));
       body_default (VObj []);;
       field_default "breakpoints" (VArr []);;
       rows ← lift (get locations "rows");
       for_of rows (fun location =>
         fields ← lift (project location
           [("line", "line"); ("column", "column"); ("endLine", "endLine");
            ("endColumn", "endColumn")]);
         push_field "breakpoints" (VObj fields));;
       sendResponse)
      (sendErrorResponse unable_to_process)
  else
    (set_body (VObj [("breakpoints", VArr [])]);;
     sendResponse).

(** [filterOptions] lists the [filterId] of each option. *)
Definition setExceptionBreakPointsRequest (filterOptions : option (list string))
  : M unit :=
  let ids := default [] filterOptions in
  let exceptions := existsb (String.eqb "exceptions") ids in
  let caughtExceptions := existsb (String.eqb "caughtExceptions") ids in
  let uncaughtExceptions := existsb (String.eqb "uncaughtExceptions") ids in
  try_catch
    (await (invokeService "setBreakOnExceptions"
       (VObj [("breaks", VBool exceptions);
              ("caughtExceptions", VBool caughtExceptions);
              ("uncaughtExceptions", VBool uncaughtExceptions)]));;
     sendResponse)
    (sendErrorResponse unable_to_process).

Definition exceptionInfoRequest (threadId : Z) : M unit :=
  try_catch
    (details ← await (invokeService "getExceptionDetails"
       (VObj [("threadID", VNum threadId)]));
     set_body details;;
     sendResponse)
    (sendErrorResponse "Unable to process exception info request").

Definition threadsRequest : M unit :=
  try_catch
    (threads ← await (invokeService "getThreads" (VObj []));
     body_default (VObj []);;
     field_default "threads" (VArr []);;
     rows ← lift (get threads "rows");
     for_of rows (fun thread =>
       ID ← lift (get thread "ID");
       fixed ← lift (toFixed ID);
       push_field "threads" (VObj [("id", ID); ("name", VStr ("Thread " +:+ fixed))]));;
     sendResponse)
    (sendErrorResponse unable_to_process).

(** [path.normalize] accepts strings only. *)
Definition normalize_source (v : value) : option string :=
  match v with
  | VStr s => Some (path_normalize host s)
  | _ => None
  end.

(** A parameter with default value 0. *)
Definition default0 (v : value) : value :=
  match v with VUndefined => VNum 0 | _ => v end.

(** [this._scopeThreadMapping[key]] as a value, for the keys the adapter
    reads: a number, or [undefined]. *)
Definition thread_of_frame (s : Session) (key : value) : value :=
  num_opt (_scopeThreadMapping s !! to_string key).

(** [this._scopeThreadMapping[key] = threadId].  The index is a plain
    object: its property [__proto__] is the accessor it inherits from
    [Object.prototype], whose setter ignores a number, so that assignment
    stores nothing. *)
Definition assign_index (key : string) (threadId : Z) (index : gmap string Z)
  : gmap string Z :=
  if decide (key = "__proto__") then index else <[key := threadId]> index.

(** The body of the loop over [frames.rows] in [stackTraceRequest]. *)
Definition stack_frame_row (threadId : Z) (row : value) : M unit :=
  source ← lift (get row "source");
  filename ← lift (normalize_source source);
  id ← lift (get row "id");
  name ← lift (get row "name");
  line ← lift (get row "line");
  column ← lift (get row "column");
  push_field "stackFrames"
    (VObj [("id", id);
           ("source", VObj [("name", VStr (last_component (path_sep host) filename));
                            ("path", VStr filename);
                            ("sourceReference", VNum 0)]);
           ("line", default0 line);
           ("column", default0 column);
           ("name", name)]);;
  modify_this (fun s =>
    with_scopeThreadMapping
      (assign_index (to_string id) threadId (_scopeThreadMapping s)) s).

Definition stackTraceRequest (threadId : Z) : M unit :=
  try_catch
    (frames ← await (invokeService "getStackTraceInThread"
       (VObj [("threadID", VNum threadId)]));
     body_default (VObj []);;
     field_default "stackFrames" (VArr []);;
     rows ← lift (get frames "rows");
     for_of rows (stack_frame_row threadId);;
     rows' ← lift (get frames "rows");
     total ← lift (length_of rows');
     set_field "totalFrames" total;;
     sendResponse)
    (sendErrorResponse "Unable to process stack trace request").

Definition scopesRequest (frameId : Z) : M unit :=
  try_catch
    (s ← get_this;
     scopes ← await (invokeService "getScopesInThread"
       (VObj [("threadID", thread_of_frame s (VNum frameId));
              ("frameID", VNum frameId)]));
     body_default (VObj []);;
     field_default "scopes" (VArr []);;
     rows ← lift (get scopes "rows");
     for_of rows (fun scopeRow =>
       name ← lift (get scopeRow "name");
       variablesReference ← lift (get scopeRow "variablesReference");
       push_field "scopes"
         (VObj [("name", name); ("variablesReference", variablesReference);
                ("expensive", VBool false)]));;
     sendResponse)
    (sendErrorResponse "Unable to process scopes request.").

Definition variablesRequest (variablesReference : Z) (filter : option string)
    (start count : option Z) : M unit :=
  try_catch
    (variables ← await (invokeService "getVariableContents"
       (VObj [("reference", VNum variablesReference); ("filter", str_opt filter);
              ("start", num_opt start); ("count", num_opt count)]));
     body_default (VObj []);;
     field_default "variables" (VArr []);;
     rows ← lift (get variables "rows");
     for_of rows (fun variable => push_field "variables" variable);;
     sendResponse)
    (sendErrorResponse "Unable to process variables request").

(** [response.body.k = result.rows[0].f]. *)
Definition copy_first_row (result : value) (k f : string) : M unit :=
  rows ← lift (get result "rows");
  row ← lift (index0 rows);
  v ← lift (get row f);
  set_field k v.

Definition setVariableRequest (variablesReference : Z) (name value : string) : M unit :=
  try_catch
    (result ← await (invokeService "setVariable"
       (VObj [("reference", VNum variablesReference); ("name", VStr name);
              ("value", VStr value)]));
     body_default (VObj []);;
     copy_first_row result "value" "value";;
     copy_first_row result "variablesReference" "variablesReference";;
     copy_first_row result "type" "type";;
     copy_first_row result "indexedVariables" "indexedVariables";;
     copy_first_row result "namedVariables" "namedVariables";;
     sendResponse)
    (sendErrorResponse "Unable to process set variable request").

Definition pauseRequest (threadId : Z) : M unit :=
  try_catch
    (await (invokeService "suspendThread" (VObj [("threadID", VNum threadId)]));;
     sendResponse)
    (sendErrorResponse "Unable to process pause request.").

(** The body is assigned after the call returns; nothing is sent then. *)
Definition continueRequest (threadId : Z) (singleThread : option bool) : M unit :=
  try_catch
    (if truthy (bool_opt singleThread) then
       await (invokeService "resumeThread" (VObj [("threadID", VNum threadId)]));;
       set_body (VObj [("allThreadsContinued", VBool false)])
     else
       await (invokeService "resumeAllThreads" (VObj []));;
       set_body (VObj [("allThreadsContinued", VBool true)]))
    (sendErrorResponse "Unable to process continue request").

Definition reverseContinueRequest : M unit :=
  sendErrorResponse unsupported_operation.

(** [nextRequest], [stepInRequest] and [stepOutRequest] differ in the
    service and in the failure text; both branches of their [singleThread]
    test make the same call. *)
Definition step_request (service failure : string) (threadId : Z)
    (singleThread : option bool) : M unit :=
  try_catch
    ((if truthy (bool_opt singleThread) then
        await (invokeService service (VObj [("threadID", VNum threadId)]))
      else
        await (invokeService service (VObj [("threadID", VNum threadId)])));;
     sendResponse)
    (sendErrorResponse failure).

Definition nextRequest : Z -> option bool -> M unit :=
  step_request "stepOverThread" "Unable to process step over request".

Definition stepBackRequest : M unit :=
  sendErrorResponse unsupported_operation.

Definition stepInTargetsRequest : M unit :=
  sendErrorResponse unsupported_operation.

Definition stepInRequest : Z -> option bool -> M unit :=
  step_request "stepInThread" "Unable to process step in request".

Definition stepOutRequest : Z -> option bool -> M unit :=
  step_request "stepOutThread" "Unable to process step in request".

(** [frameId] is [None] when the arguments have no [frameId] property. *)
Definition evaluateRequest (expression : string) (frameId : option Z) : M unit :=
  let serviceName :=
    match frameId with
    | Some _ => "evaluate"
    | None => "evaluateGlobally"
    end in
  try_catch
    (s ← get_this;
     result ← await (invokeService serviceName
       (VObj [("expression", VStr expression);
              ("threadID", thread_of_frame s (num_opt frameId));
              ("frameID", num_opt frameId)]));
     rows ← lift (get result "rows");
     row ← lift (index0 rows);
     body_default (VObj []);;
     fields ← lift (project row
       [("result", "value"); ("type", "type");
        ("variablesReference", "variablesReference");
        ("presentationHint", "presentationHint");
        ("indexedVariables", "indexedVariables");
        ("namedVariables", "namedVariables")]);
     each (fun kv => set_field (fst kv) (snd kv)) fields;;
     sendResponse)
    (sendErrorResponse "Unable to process evaluate request").

Definition setExpressionRequest : M unit :=
  sendErrorResponse unsupported_operation.

Definition dataBreakpointInfoRequest : M unit :=
  sendErrorResponse unsupported_operation.

Definition setDataBreakpointsRequest : M unit :=
  sendErrorResponse unsupported_operation.

Definition completionsRequest : M unit :=
  set_body (VObj [("targets", VArr [])]);;
  sendResponse.

(** [progressId] is tested and nothing is done with it. *)
Definition cancelRequest (requestId : option Z) (progressId : option string) : M unit :=
  match requestId with
  | Some id =>
      if truthy (VNum id) then
        modify_this (fun s =>
          with_cancellationTokens (<[id := true]> (_cancellationTokens s)) s)
      else mret tt
  | None => mret tt
  end.

Definition disassembleRequest : M unit :=
  sendErrorResponse unsupported_operation.

Definition setInstructionBreakpointsRequest : M unit :=
  sendErrorResponse unsupported_operation.

Definition customRequest (command : string) (args : value) : M unit :=
  sendErrorResponse unsupported_operation.

(** ** Dispatch *)

(** The requests of the frontend, with the arguments the handlers read. *)
Inductive Request :=
| initialize
| configurationDone
| attach (args : AttachRequestArguments)
| disconnect
| launch (trace : option bool)
| setBreakpoints (source : Source) (breakpoints : option (list value))
| breakpointLocations (source : Source) (line : Z) (column endLine endColumn : option Z)
| setExceptionBreakpoints (filterOptions : option (list string))
| exceptionInfo (threadId : Z)
| threads
| stackTrace (threadId : Z)
| scopes (frameId : Z)
| variables (variablesReference : Z) (filter : option string) (start count : option Z)
| setVariable (variablesReference : Z) (name value : string)
| pause (threadId : Z)
| continue (threadId : Z) (singleThread : option bool)
| reverseContinue
| next (threadId : Z) (singleThread : option bool)
| stepBack
| stepInTargets
| stepIn (threadId : Z) (singleThread : option bool)
| stepOut (threadId : Z) (singleThread : option bool)
| evaluate (expression : string) (frameId : option Z)
| setExpression
| dataBreakpointInfo
| setDataBreakpoints
| completions
| cancel (requestId : option Z) (progressId : option string)
| disassemble
| setInstructionBreakpoints
| custom (command : string) (args : value).

(** The method the debug-adapter framework calls for each request. *)
Definition handler (req : Request) : M unit :=
  match req with
  | initialize => initializeRequest
  | configurationDone => configurationDoneRequest
  | attach args => attachRequest args
  | disconnect => disconnectRequest
  | launch trace => launchRequest trace
  | setBreakpoints source breakpoints => setBreakPointsRequest source breakpoints
  | breakpointLocations source line column endLine endColumn =>
      breakpointLocationsRequest source line column endLine endColumn
  | setExceptionBreakpoints filterOptions => setExceptionBreakPointsRequest filterOptions
  | exceptionInfo threadId => exceptionInfoRequest threadId
  | threads => threadsRequest
  | stackTrace threadId => stackTraceRequest threadId
  | scopes frameId => scopesRequest frameId
  | variables variablesReference filter start count =>
      variablesRequest variablesReference filter start count
  | setVariable variablesReference name value =>
      setVariableRequest variablesReference name value
  | pause threadId => pauseRequest threadId
  | continue threadId singleThread => continueRequest threadId singleThread
  | reverseContinue => reverseContinueRequest
  | next threadId singleThread => nextRequest threadId singleThread
  | stepBack => stepBackRequest
  | stepInTargets => stepInTargetsRequest
  | stepIn threadId singleThread => stepInRequest threadId singleThread
  | stepOut threadId singleThread => stepOutRequest threadId singleThread
  | evaluate expression frameId => evaluateRequest expression frameId
  | setExpression => setExpressionRequest
  | dataBreakpointInfo => dataBreakpointInfoRequest
  | setDataBreakpoints => setDataBreakpointsRequest
  | completions => completionsRequest
  | cancel requestId progressId => cancelRequest requestId progressId
  | disassemble => disassembleRequest
  | setInstructionBreakpoints => setInstructionBreakpointsRequest
  | custom command args => customRequest command args
  end.

(** Running a method on a session with a fresh trace. *)
Definition run {A} (m : M A) (s : Session) (r : Response) : completion A * Frame :=
  m {| this := s; response := r; trace := [] |}.

(** The response object the framework creates for request number [seq]. *)
Definition fresh_response (seq : Z) : Response :=
  {| request_seq := seq; body := VUndefined |}.

Definition handle (seq : Z) (req : Request) (s : Session) : completion unit * Frame :=
  run (handler req) s (fresh_response seq).

(** What the socket library delivers to the callbacks of socket [id]. *)
Inductive SocketEvent :=
| Opened
| MessageReceived (data : option value)
| Failed (message : string).

(** The callback currently installed for the event, if any.  The
    steady-state callback has no response in scope. *)
Definition deliver (id : nat) (e : SocketEvent) (s : Session) : completion unit * Frame :=
  let idle := (Normal tt, {| this := s; response := fresh_response 0; trace := [] |}) in
  match sockets s !! id with
  | None => idle
  | Some ws =>
      match e with
      | Opened =>
          match onopen ws with
          | Authenticate key => run (attach_onopen id key) s (fresh_response 0)
          | NoOpenHandler => idle
          end
      | MessageReceived data =>
          match onmessage ws with
          | AttachHandshake r => run (attach_onmessage id data) s r
          | DidRecieveMessage => run (_didRecieveMessageWithEvent data) s (fresh_response 0)
          | NoMessageHandler => idle
          end
      | Failed message =>
          match onerror ws with
          | AttachFailed r => run (attach_onerror message) s r
          | IgnoreError => idle
          | NoErrorHandler => idle
          end
      end
  end.

End Adapter.

(** ** Reading traces *)

Definition is_response (a : Action) : bool :=
  match a with
  | SendResponse _ | SendErrorResponse _ _ => true
  | _ => false
  end.

Definition is_invoke (a : Action) : bool :=
  match a with
  | Invoke _ _ => true
  | _ => false
  end.

(** The number of terminal responses in a trace. *)
Definition responses (t : list Action) : nat := length (List.filter is_response t).

Definition invocations (t : list Action) : list Action := List.filter is_invoke t.

(** ** The vocabulary of the properties *)

(** Example environments, for the paths and the addresses of the
    examples below: paths that [path.normalize] leaves as they are, and
    addresses the socket constructor accepts. *)

Definition posix_host : Host :=
  {| platform := "linux"; path_sep := "/"; path_normalize := fun s => s;
     websocket_accepts := fun _ => true |}.

Definition windows_host : Host :=
  {| platform := "win32"; path_sep := "\"; path_normalize := fun s => s;
     websocket_accepts := fun _ => true |}.

(** A host whose socket constructor refuses an address with the port
    70000: no port lies above 65535. *)
Definition refusing_host : Host :=
  {| platform := "linux"; path_sep := "/"; path_normalize := fun s => s;
     websocket_accepts := fun url =>
       negb (String.eqb url "ws://localhost:70000/Thingworx/ThingworxDebugger") |}.

(** The integers JavaScript writes with all their digits: from 10^21 on,
    [toString] and [toFixed] switch to exponent notation, which [to_string]
    and [toFixed] do not follow. *)
Definition printable (n : Z) : Prop := - 10 ^ 21 < n < 10 ^ 21.

(** The values on which [to_string] is exact. *)
Fixpoint exact_string (v : value) : Prop :=
  match v with
  | VNum n => printable n
  | VArr items =>
      (fix all (l : list value) : Prop :=
         match l with
         | [] => True
         | x :: l' => exact_string x /\ all l'
         end) items
  | _ => True
  end.

(** A target that answers every call with status 200 and the body [v]. *)
Definition replying_target (v : value) : Target :=
  fun _ _ => HttpResponse 200 (Some v).

(** A target whose every call fails at the transport. *)
Definition failing_target : Target := fun _ _ => TransportError.

(** A target that never answers. *)
Definition silent_target : Target := fun _ _ => NoReply.

Definition failure (e : string) : Message :=
  {| msg_id := 0; format := e; showUser := true |}.

Definition invoked (n : string) (a : value) (f : Frame) : Frame :=
  {| this := this f; response := response f; trace := trace f ++ [Invoke n a] |}.

(** A computation is [local] when it performs no visible action and never
    parks at an [await]: it only reads and updates the session and the
    response object, or throws. *)
Definition local {A} (m : M A) : Prop :=
  forall f, trace (snd (m f)) = trace f /\ fst (m f) <> Suspend.

(** A body [answers] when it is local up to a final [sendResponse]. *)
Definition answers (m : M unit) : Prop :=
  forall f,
    match m f with
    | (Normal _, f') => exists r, trace f' = (trace f ++ [SendResponse r])%list
    | (Throw, f') => trace f' = trace f
    | (Suspend, _) => False
    end.

(** The two ways a handler can leave its request: answered exactly once,
    or parked for ever behind a call the target never answers, with
    nothing sent. *)
Definition answered_once (out : completion unit * Frame) : Prop :=
  fst out = Normal tt /\ responses (trace (snd out)) = 1%nat.

Definition parked (out : completion unit * Frame) : Prop :=
  fst out = Suspend /\ responses (trace (snd out)) = 0%nat.

(** The requests that the handler itself answers.  [attach] is answered
    later, from the socket callbacks; [continue], [cancel] and [disconnect]
    return without a response on their normal path and have lemmas of
    their own. *)
Definition answered_by_handler (req : Request) : bool :=
  match req with
  | attach _ | continue _ _ | cancel _ _ | disconnect => false
  | _ => true
  end.

(** The requests the adapter rejects. *)
Definition rejected (req : Request) : bool :=
  match req with
  | launch _ | reverseContinue | stepBack | stepInTargets | setExpression
  | dataBreakpointInfo | setDataBreakpoints | disassemble
  | setInstructionBreakpoints | custom _ _ => true
  | _ => false
  end.

(** The session right after [attachRequest] returned, starting from a new
    session: socket 0 exists, with the three callbacks installed. *)
Definition attaching (target : Target) (seq : Z) (args : AttachRequestArguments)
  : Session :=
  this (snd (handle posix_host target seq (attach args) new_session)).

(** The dispatch of section 4.3 of the specification, on a parsed frame:
    the list of events it asks for. *)
Definition payload (m : value) (k : string) : value :=
  match m with
  | VObj fields => of_option (lookup_field k fields)
  | _ => VUndefined
  end.

Definition newline : string := String "010" EmptyString.

Definition dispatch_by_name (m : value) : list Event :=
  match payload m "name" with
  | VStr name =>
      if decide (name = "suspended") then
        [StoppedEvent (payload m "reason") (payload m "threadID") (payload m "exception")]
      else if decide (name = "resumed") then
        [ContinuedEvent (payload m "threadID") false]
      else if decide (name = "log") then
        [LogOutputEvent (to_string (payload m "body") +:+ newline) (payload m "level")]
      else []
  | _ => []
  end.

(** Assigning a list of properties one after the other: the last
    assignment to a name wins, and the other properties are kept. *)
Definition assign_all (props fields : list (string * value)) : list (string * value) :=
  fold_left (fun fs kv => assign_field (fst kv) (snd kv) fs) props fields.

(** The response objects [initialize] can be given: the body is absent,
    or it is a plain object (the framework passes an empty one). *)
Definition plain_body (b : value) : Prop :=
  truthy b = false \/ exists fields, b = VObj fields.

(** The exception filters a capability set declares. *)
Definition exception_filters (caps : value) : list value :=
  match get caps "exceptionBreakpointFilters" with
  | Some (VArr filters) => filters
  | _ => []
  end.

Definition has_backslash (s : string) : bool :=
  existsb (Ascii.eqb "\") (list_ascii_of_string s).

(** The handler's first action is the remote call [n] with argument [a],
    and it makes no other call. *)
Definition calls (out : completion unit * Frame) (n : string) (a : value) : Prop :=
  exists rest, trace (snd out) = Invoke n a :: rest /\ invocations rest = [].

(** *** Vocabulary of the further properties *)

(** [undefined] and [null], the two values no property can be read from. *)
Definition nullish (v : value) : bool :=
  match v with
  | VUndefined | VNull => true
  | _ => false
  end.

(** A frame with another response body. *)
Definition with_body (b : value) (f : Frame) : Frame :=
  {| this := this f;
     response := {| request_seq := request_seq (response f); body := b |};
     trace := trace f |}.

(** A computation [preserves] a relation between the session it finds
    and the session it leaves, however it ends. *)
Definition preserves {A} (R : Session -> Session -> Prop) (m : M A) : Prop :=
  forall f, R (this f) (this (snd (m f))).

(** The aspect [g] of the session is the same before and after. *)
Definition same {X} (g : Session -> X) : Session -> Session -> Prop :=
  fun before after => g after = g before.

(** Every key of the frame index is mapped as before, or to the thread. *)
Definition index_towards (threadId : Z) : Session -> Session -> Prop :=
  fun before after =>
    forall key,
      _scopeThreadMapping after !! key = _scopeThreadMapping before !! key
      \/ _scopeThreadMapping after !! key = Some threadId.

(** The connection parameters of a session. *)
Definition connection (s : Session)
  : option string * option string * option bool * option string :=
  (domain s, port s, useSSL s, appKey s).

(** The objects the handlers build from one row of a result. *)
Definition breakpoint_of (source : Source) (row : value) : value :=
  VObj [("verified", payload row "verified"); ("column", payload row "column");
        ("endColumn", payload row "endColumn"); ("endLine", payload row "endLine");
        ("id", payload row "sequenceID"); ("line", payload row "line");
        ("message", payload row "message"); ("source", source_value source)].

Definition location_of (row : value) : value :=
  VObj [("line", payload row "line"); ("column", payload row "column");
        ("endLine", payload row "endLine"); ("endColumn", payload row "endColumn")].

Definition thread_named (n : Z) : value :=
  VObj [("id", VNum n); ("name", VStr ("Thread " +:+ pretty n))].

Definition scope_of (row : value) : value :=
  VObj [("name", payload row "name");
        ("variablesReference", payload row "variablesReference");
        ("expensive", VBool false)].

Definition frame_of (host : Host) (row : value) (source : string) : value :=
  let filename := path_normalize host source in
  VObj [("id", payload row "id");
        ("source", VObj [("name", VStr (last_component (path_sep host) filename));
                         ("path", VStr filename);
                         ("sourceReference", VNum 0)]);
        ("line", default0 (payload row "line"));
        ("column", default0 (payload row "column"));
        ("name", payload row "name")].

(** The translation of one row of a result, as the loops of the handlers
    compute it; [None] when it throws. *)
Definition breakpoint_row (source : Source) (row : value) : option value :=
  fields ← project row
    [("verified", "verified"); ("column", "column"); ("endColumn", "endColumn");
     ("endLine", "endLine"); ("id", "sequenceID"); ("line", "line");
     ("message", "message")];
  Some (VObj (fields ++ [("source", source_value source)])).

Definition location_row (row : value) : option value :=
  fields ← project row
    [("line", "line"); ("column", "column"); ("endLine", "endLine");
     ("endColumn", "endColumn")];
  Some (VObj fields).

Definition thread_row (thread : value) : option value :=
  ID ← get thread "ID";
  fixed ← toFixed ID;
  Some (VObj [("id", ID); ("name", VStr ("Thread " +:+ fixed))]).

Definition scope_row (scopeRow : value) : option value :=
  name ← get scopeRow "name";
  variablesReference ← get scopeRow "variablesReference";
  Some (VObj [("name", name); ("variablesReference", variablesReference);
              ("expensive", VBool false)]).

(** The index after the frames of [rows] have been recorded for a thread,
    one after the other. *)
Definition record_frames (threadId : Z) (rows : list value) (index : gmap string Z)
  : gmap string Z :=
  fold_left (fun m row => assign_index (to_string (payload row "id")) threadId m)
    rows index.

(** The requests whose handler walks through the rows of the result. *)
Definition lists_rows (req : Request) : bool :=
  match req with
  | setBreakpoints _ _ | breakpointLocations _ _ _ _ _ | threads | stackTrace _
  | scopes _ | variables _ _ _ _ => true
  | _ => false
  end.

(** The first row of a result, when there is one to read properties
    from; [setVariableRequest] and [evaluateRequest] read [result.rows[0]]. *)
Definition first_row (result : value) : option value :=
  rows ← get result "rows";
  row ← index0 rows;
  if nullish row then None else Some row.

(** The socket [attachRequest] creates. *)
Definition attach_socket (seq : Z) (args : AttachRequestArguments) : WebSocket :=
  {| ws_url := (if args_useSSL args then "wss" else "ws") +:+ "://"
               +:+ thingworxDomain args +:+ ":"
               +:+ pretty (to_int32 (thingworxPort args))
               +:+ "/Thingworx/ThingworxDebugger";
     onmessage := AttachHandshake (fresh_response seq);
     onopen := Authenticate (thingworxAppKey args);
     onerror := AttachFailed (fresh_response seq);
     ws_closed := false |}.

(** What [deliver] returns when no callback runs. *)
Definition idle (s : Session) : completion unit * Frame :=
  (Normal tt, {| this := s; response := fresh_response 0; trace := [] |}).

(** The remote service a request is mapped to, if any. *)
Definition service_of (req : Request) : option string :=
  match req with
  | disconnect => Some "disconnectDebugger"
  | setBreakpoints _ _ => Some "setBreakpointsForFile"
  | breakpointLocations _ _ _ _ _ => Some "getBreakpointLocationsInFile"
  | setExceptionBreakpoints _ => Some "setBreakOnExceptions"
  | exceptionInfo _ => Some "getExceptionDetails"
  | threads => Some "getThreads"
  | stackTrace _ => Some "getStackTraceInThread"
  | scopes _ => Some "getScopesInThread"
  | variables _ _ _ _ => Some "getVariableContents"
  | setVariable _ _ _ => Some "setVariable"
  | pause _ => Some "suspendThread"
  | continue _ singleThread =>
      Some (if truthy (bool_opt singleThread) then "resumeThread" else "resumeAllThreads")
  | next _ _ => Some "stepOverThread"
  | stepIn _ _ => Some "stepInThread"
  | stepOut _ _ => Some "stepOutThread"
  | evaluate _ (Some _) => Some "evaluate"
  | evaluate _ None => Some "evaluateGlobally"
  | _ => None
  end.

(** ** Reasoning about handler bodies *)

Lemma local_ret {A} (a : A) : local (mret a).
Proof. intros f. split; [reflexivity | discriminate]. Qed.

Lemma local_throw {A} : local (@throw A).
Proof. intros f. split; [reflexivity | discriminate]. Qed.

Lemma local_lift {A} (o : option A) : local (lift o).
Proof. destruct o; [apply local_ret | apply local_throw]. Qed.

Lemma local_get_this : local get_this.
Proof. intros f. split; [reflexivity | discriminate]. Qed.

Lemma local_get_response : local get_response.
Proof. intros f. split; [reflexivity | discriminate]. Qed.

Lemma local_modify_this g : local (modify_this g).
Proof. intros f. split; [reflexivity | discriminate]. Qed.

Lemma local_set_body b : local (set_body b).
Proof. intros f. split; [reflexivity | discriminate]. Qed.

Lemma local_bind {A B} (m : M A) (k : A -> M B) :
  local m -> (forall a, local (k a)) -> local (m ≫= k).
Proof.
  intros Hm Hk f. unfold mbind, M_bind.
  destruct (Hm f) as [Ht Hs].
  destruct (m f) as [[a| |] f1]; simpl in *.
  - destruct (Hk a f1) as [Ht' Hs']. split; [congruence | assumption].
  - split; [assumption | discriminate].
  - contradiction.
Qed.

Lemma local_try_catch {A} (m h : M A) :
  local m -> local h -> local (try_catch m h).
Proof.
  intros Hm Hh f. unfold try_catch.
  destruct (Hm f) as [Ht Hs].
  destruct (m f) as [[a| |] f1]; simpl in *.
  - split; [assumption | discriminate].
  - destruct (Hh f1) as [Ht' Hs']. split; [congruence | assumption].
  - contradiction.
Qed.

Lemma local_each {A} (k : A -> M unit) (l : list A) :
  (forall x, local (k x)) -> local (each k l).
Proof.
  intros Hk. induction l as [|x l IH]; simpl.
  - apply local_ret.
  - apply local_bind; [apply Hk | intros _; exact IH].
Qed.

Lemma local_for_of v (k : value -> M unit) :
  (forall x, local (k x)) -> local (for_of v k).
Proof.
  intros Hk. unfold for_of.
  apply local_bind; [apply local_lift | intros items; apply local_each, Hk].
Qed.

Lemma local_body_default d : local (body_default d).
Proof.
  unfold body_default.
  apply local_bind; [apply local_get_response | intros r; apply local_set_body].
Qed.

Lemma local_set_field k v : local (set_field k v).
Proof.
  unfold set_field. apply local_bind; [apply local_get_response |].
  intros r. destruct (body r); first [apply local_throw | apply local_set_body].
Qed.

Lemma local_get_field k : local (get_field k).
Proof.
  unfold get_field.
  apply local_bind; [apply local_get_response | intros r; apply local_lift].
Qed.

Lemma local_field_default k d : local (field_default k d).
Proof.
  unfold field_default.
  apply local_bind; [apply local_get_field | intros v; apply local_set_field].
Qed.

Lemma local_push_field k x : local (push_field k x).
Proof.
  unfold push_field. apply local_bind; [apply local_get_field |].
  intros v. destruct v; first [apply local_throw | apply local_set_field].
Qed.

Lemma local_copy_first_row result k f : local (copy_first_row result k f).
Proof.
  unfold copy_first_row.
  repeat (apply local_bind; [apply local_lift | intros ?]).
  apply local_set_field.
Qed.

Lemma local_stack_frame_row host threadId row :
  local (stack_frame_row host threadId row).
Proof.
  unfold stack_frame_row.
  repeat (apply local_bind; [apply local_lift | intros ?]).
  apply local_bind; [apply local_push_field | intros _; apply local_modify_this].
Qed.

Create HintDb handler discriminated.

#[export] Hint Resolve local_ret local_throw local_lift local_get_this
  local_get_response local_modify_this local_set_body local_body_default
  local_set_field local_get_field local_field_default local_push_field
  local_copy_first_row local_stack_frame_row : handler.

Lemma answers_sendResponse : answers sendResponse.
Proof. intros f. simpl. eexists. reflexivity. Qed.

Lemma answers_bind {A} (m : M A) (k : A -> M unit) :
  local m -> (forall a, answers (k a)) -> answers (m ≫= k).
Proof.
  intros Hm Hk f. unfold mbind, M_bind.
  destruct (Hm f) as [Ht Hs].
  destruct (m f) as [[a| |] f1]; simpl in *.
  - specialize (Hk a f1). destruct (k a f1) as [[u| |] f2].
    + destruct Hk as [r Hr]. exists r. congruence.
    + congruence.
    + contradiction.
  - assumption.
  - contradiction.
Qed.

(** Discharges [local] and [answers] goals by following the structure of
    the body. *)
Ltac handler_body :=
  repeat first
    [ apply answers_sendResponse
    | solve [auto with handler]
    | apply local_for_of; intros ?
    | apply local_each; intros ?
    | apply answers_bind; [| intros ?]
    | apply local_bind; [| intros ?] ].

(** ** The shape of a remote-call handler *)

Section Shape.

Variable target : Target.

Lemma await_invokeService n a f :
  await (invokeService target n a) f =
  match settle (target (service_url (this f) n) a) with
  | Fulfilled v => (Normal v, invoked n a f)
  | Rejected => (Throw, invoked n a f)
  | Pending => (Suspend, invoked n a f)
  end.
Proof.
  unfold await, invokeService, invoked. simpl.
  destruct (settle _); reflexivity.
Qed.

Lemma settle_pending reply : settle reply = Pending -> reply = NoReply.
Proof.
  destruct reply as [| |code parsed]; simpl; try easy.
  destruct (negb (code =? 200)); [easy |]. destruct parsed; easy.
Qed.

(** A handler of the form
    [try { v = await invokeService(n, a); k v } catch { sendErrorResponse }]
    whose continuation is local up to its final [sendResponse]: the call is
    made first, and then exactly one response follows unless the call never
    settles. *)
Lemma remote_handler n a (k : value -> M unit) e f :
  (forall v, answers (k v)) ->
  let out := try_catch (await (invokeService target n a) ≫= k) (sendErrorResponse e) f in
  match settle (target (service_url (this f) n) a) with
  | Pending =>
      fst out = Suspend /\ trace (snd out) = (trace f ++ [Invoke n a])%list
  | Rejected =>
      fst out = Normal tt /\
      trace (snd out) =
        (trace f ++ [Invoke n a; SendErrorResponse (response f) (failure e)])%list
  | Fulfilled v =>
      fst out = Normal tt /\
      exists r, is_response r = true /\
                trace (snd out) = (trace f ++ [Invoke n a; r])%list
  end.
Proof.
  intros Hk out. subst out.
  unfold try_catch, mbind, M_bind. rewrite await_invokeService.
  destruct (settle _) as [v| |]; simpl.
  - specialize (Hk v (invoked n a f)).
    destruct (k v (invoked n a f)) as [[[]| |] f2]; simpl in *.
    + destruct Hk as [r Hr]. split; [reflexivity |].
      exists (SendResponse r). split; [reflexivity |].
      rewrite Hr, <- app_assoc. reflexivity.
    + split; [reflexivity |]. eexists. split; [| rewrite Hk, <- app_assoc; reflexivity].
      reflexivity.
    + contradiction.
  - rewrite <- app_assoc. split; reflexivity.
  - split; reflexivity.
Qed.

Lemma responses_app t1 t2 : responses (t1 ++ t2) = (responses t1 + responses t2)%nat.
Proof. unfold responses. rewrite List.filter_app, length_app. reflexivity. Qed.

Lemma invocations_app t1 t2 :
  invocations (t1 ++ t2) = (invocations t1 ++ invocations t2)%list.
Proof. apply List.filter_app. Qed.

Lemma settle_pending_iff reply : settle reply = Pending <-> reply = NoReply.
Proof.
  split; [apply settle_pending | intros ->; reflexivity].
Qed.

(** Such a handler makes one call.  When the target answers that call,
    whatever the answer, the request is answered exactly once; when it
    does not, the handler is parked behind the call with nothing sent. *)
Lemma remote_outcome n a (k : value -> M unit) e f :
  (forall v, answers (k v)) ->
  responses (trace f) = 0%nat ->
  invocations (trace f) = [] ->
  invocations (trace (snd (try_catch (await (invokeService target n a) ≫= k)
                             (sendErrorResponse e) f))) = [Invoke n a]
  /\ (target (service_url (this f) n) a <> NoReply ->
      answered_once (try_catch (await (invokeService target n a) ≫= k)
                       (sendErrorResponse e) f))
  /\ (target (service_url (this f) n) a = NoReply ->
      parked (try_catch (await (invokeService target n a) ≫= k)
                (sendErrorResponse e) f)).
Proof.
  intros Hk Hf Hi. unfold answered_once, parked.
  pose proof (remote_handler n a k e f Hk) as H. simpl in H.
  pose proof (settle_pending_iff (target (service_url (this f) n) a)) as Hpending.
  destruct (settle _) as [v| |].
  - destruct H as [Hc (r & Hr & Ht)]. rewrite Ht. split; [| split].
    + rewrite invocations_app, Hi. unfold invocations. simpl.
      destruct r; try discriminate Hr; reflexivity.
    + intros _. split; [exact Hc |].
      rewrite responses_app, Hf. unfold responses. simpl. rewrite Hr. reflexivity.
    + intros Hsilent. apply Hpending in Hsilent. discriminate Hsilent.
  - destruct H as [Hc Ht]. rewrite Ht. split; [| split].
    + rewrite invocations_app, Hi. reflexivity.
    + intros _. split; [exact Hc |]. rewrite responses_app, Hf. reflexivity.
    + intros Hsilent. apply Hpending in Hsilent. discriminate Hsilent.
  - destruct H as [Hc Ht]. rewrite Ht. split; [| split].
    + rewrite invocations_app, Hi. reflexivity.
    + intros Hreply. exfalso. apply Hreply, Hpending. reflexivity.
    + intros _. split; [exact Hc |]. rewrite responses_app, Hf. reflexivity.
Qed.

(** The call is the first thing such a handler does, and the only call
    it makes. *)
Lemma remote_handler_invokes n a (k : value -> M unit) e f t :
  (forall v, answers (k v)) ->
  trace f = t ->
  exists rest,
    trace (snd (try_catch (await (invokeService target n a) ≫= k)
                  (sendErrorResponse e) f)) = (t ++ Invoke n a :: rest)%list
    /\ invocations rest = [].
Proof.
  intros Hk <-.
  pose proof (remote_handler n a k e f Hk) as H. simpl in H.
  destruct (settle _) as [v| |].
  - destruct H as [_ (r & Hr & ->)]. exists [r]. split; [reflexivity |].
    unfold invocations. simpl. destruct r; try discriminate Hr; reflexivity.
  - destruct H as [_ ->]. eexists. split; reflexivity.
  - destruct H as [_ ->]. exists []. split; reflexivity.
Qed.

End Shape.

(** ** One response per request *)

Section OneResponse.

Variable host : Host.
Variable target : Target.

Lemma step_request_outcome service e threadId singleThread f :
  responses (trace f) = 0%nat ->
  invocations (trace f) = [] ->
  let a := VObj [("threadID", VNum threadId)] in
  let out := step_request target service e threadId singleThread f in
  invocations (trace (snd out)) = [Invoke service a]
  /\ (target (service_url (this f) service) a <> NoReply -> answered_once out)
  /\ (target (service_url (this f) service) a = NoReply -> parked out).
Proof.
  intros Hf Hi a out. subst a out. unfold step_request.
  destruct (truthy (bool_opt singleThread));
    (apply remote_outcome; [intros ?; handler_body | exact Hf | exact Hi]).
Qed.

End OneResponse.

(** The claim as stated fails where the remote call never completes: a
    [pause] whose call the target never answers is left without any
    response. *)
Lemma pause_unanswered_when_target_silent :
  let out := handle posix_host silent_target 1 (pause 3) new_session in
  fst out = Suspend /\
  trace (snd out) = [Invoke "suspendThread" (VObj [("threadID", VNum 3)])] /\
  responses (trace (snd out)) = 0%nat.
Proof. repeat split. Qed.

(** C1 (as amended): for every request other than attach, continue,
    cancel and disconnect, the handler makes at most one remote call.  When
    it makes none, and when the target answers the call it makes, be it
    with success or with failure, the handler sends exactly one terminal
    response; when the target never answers that call, the handler stays
    suspended behind it and sends no response. *)
Theorem one_response_per_request host target seq req s :
  answered_by_handler req = true ->
  let out := handle host target seq req s in
  (invocations (trace (snd out)) = [] /\ answered_once out)
  \/ exists n a,
       invocations (trace (snd out)) = [Invoke n a]
       /\ (target (service_url s n) a <> NoReply -> answered_once out)
       /\ (target (service_url s n) a = NoReply -> parked out).
Proof.
  intros Hreq out. subst out. unfold handle, run.
  destruct req; try discriminate Hreq; simpl handler;
    try (left; split; [reflexivity | split; reflexivity]);
    try (right; eexists _, _;
         apply (step_request_outcome target); reflexivity);
    try (right; eexists _, _;
         apply (remote_outcome target); [intros ?; handler_body | reflexivity..]).
  - (* setBreakpoints *)
    unfold setBreakPointsRequest.
    destruct (normalize_path host (src_path source)) as [path|].
    + right. eexists _, _.
      apply (remote_outcome target "setBreakpointsForFile");
        [intros ?; handler_body | reflexivity..].
    + left. split; [reflexivity | split; reflexivity].
  - (* breakpointLocations *)
    unfold breakpointLocationsRequest.
    destruct (truthy (str_opt (src_path source)));
      [| left; split; [reflexivity | split; reflexivity]].
    destruct (normalize_path host (src_path source)) as [path|].
    + right. eexists _, _.
      apply (remote_outcome target "getBreakpointLocationsInFile"
               _ _ _ {| this := s; response := fresh_response seq;
                        trace := [ConsoleLog _] |});
        [intros ?; handler_body | reflexivity..].
    + left. split; [reflexivity | split; reflexivity].
Qed.

Lemma one_response_per_request_witness :
  answered_once (handle windows_host failing_target 4 (stackTrace 7) new_session)
  /\ parked (handle posix_host silent_target 1 (pause 3) new_session).
Proof.
  split.
  - destruct (one_response_per_request windows_host failing_target 4 (stackTrace 7)
                new_session eq_refl) as [[_ H] | (n & a & _ & H & _)].
    + exact H.
    + apply H. unfold failing_target. discriminate.
  - destruct (one_response_per_request posix_host silent_target 1 (pause 3)
                new_session eq_refl) as [[Hnone _] | (n & a & _ & _ & H)].
    + discriminate Hnone.
    + apply H. reflexivity.
Defined.

(** [cancel] never sends anything, and [disconnect], whose call is not
    awaited, sends no response either. *)
Lemma cancel_sends_nothing host target seq requestId progressId s :
  trace (snd (handle host target seq (cancel requestId progressId) s)) = [].
Proof.
  unfold handle, run. simpl. unfold cancelRequest.
  destruct requestId as [id|]; [| reflexivity].
  destruct (truthy (VNum id)); reflexivity.
Qed.

Lemma disconnect_sends_no_response host target seq s :
  responses (trace (snd (handle host target seq disconnect s))) = 0%nat.
Proof.
  unfold handle, run. simpl. unfold disconnectRequest, try_catch, mbind, M_bind.
  simpl. unfold close_own_websocket, mbind, M_bind. simpl.
  destruct (_websocket s); reflexivity.
Qed.

(** ** The attach handshake *)

Section Handshake.

Variable target : Target.

(** A first frame that does not parse: the socket is closed, the session
    forgets it and the attach request fails. *)
Lemma handshake_unparsable websocket s r :
  run (attach_onmessage target websocket None) s r =
  (Normal tt,
   {| this := with_websocket None
                (with_sockets (alter with_closed websocket (sockets s)) s);
      response := r;
      trace := [SocketClose websocket;
                SendErrorResponse r (failure unable_to_process)] |}).
Proof. reflexivity. Qed.

(** A first frame that parses and whose [authenticated] is falsy: the
    test fails, nothing is sent and nothing is closed, and the callbacks
    are swapped as after a successful attach. *)
Lemma handshake_not_authenticated websocket s r m authenticated :
  get m "authenticated" = Some authenticated ->
  truthy authenticated = false ->
  run (attach_onmessage target websocket (Some m)) s r =
  (Normal tt,
   {| this := with_sockets
                (alter (with_onerror IgnoreError) websocket
                   (alter (with_onmessage DidRecieveMessage) websocket (sockets s))) s;
      response := r;
      trace := [] |}).
Proof.
  intros Hget Hfalsy.
  unfold run, attach_onmessage, try_catch, mbind, M_bind. simpl.
  rewrite Hget. simpl. rewrite Hfalsy. reflexivity.
Qed.

(** A first frame whose [authenticated] is truthy: the call is issued,
    its promise is dropped, and the attach request succeeds, whatever the
    target does with the call. *)
Lemma handshake_authenticated websocket s r m authenticated :
  get m "authenticated" = Some authenticated ->
  truthy authenticated = true ->
  run (attach_onmessage target websocket (Some m)) s r =
  (Normal tt,
   {| this := with_sockets
                (alter (with_onerror IgnoreError) websocket
                   (alter (with_onmessage DidRecieveMessage) websocket (sockets s))) s;
      response := r;
      trace := [Invoke "connectDebugger" (VObj []); SendResponse r] |}).
Proof.
  intros Hget Htruthy.
  unfold run, attach_onmessage, try_catch, mbind, M_bind. simpl.
  rewrite Hget. simpl. rewrite Htruthy. reflexivity.
Qed.

End Handshake.

Lemma attaching_socket target seq args :
  exists url,
    sockets (attaching target seq args) =
      [{| ws_url := url;
          onmessage := AttachHandshake (fresh_response seq);
          onopen := Authenticate (thingworxAppKey args);
          onerror := AttachFailed (fresh_response seq);
          ws_closed := false |}]
    /\ _websocket (attaching target seq args) = Some 0%nat.
Proof. eexists. split; reflexivity. Qed.

Lemma attach_unparsable_frame_fails target seq args :
  let out := deliver target 0 (MessageReceived None) (attaching target seq args) in
  trace (snd out) =
    [SocketClose 0; SendErrorResponse (fresh_response seq) (failure unable_to_process)]
  /\ ws_closed <$> sockets (this (snd out)) !! 0%nat = Some true.
Proof. split; reflexivity. Qed.

Lemma swapped_callbacks id (l : list WebSocket) ws :
  l !! id = Some ws ->
  alter (with_onerror IgnoreError) id (alter (with_onmessage DidRecieveMessage) id l)
    !! id = Some (with_onerror IgnoreError (with_onmessage DidRecieveMessage ws)).
Proof.
  intros H. rewrite !list_lookup_alter, H.
  destruct (decide (id = id)); [reflexivity | contradiction].
Qed.

(** C2: what the handshake does on a first frame that parses and whose
    [authenticated] is false (or falsy).  The claim asks for an error
    response and a closed socket; the callback sends nothing, leaves the
    socket as open as it was, keeps it as the session's socket and installs
    the steady-state callbacks. *)
Theorem attach_not_authenticated_unanswered target s id ws r m authenticated :
  sockets s !! id = Some ws ->
  onmessage ws = AttachHandshake r ->
  get m "authenticated" = Some authenticated ->
  truthy authenticated = false ->
  let out := deliver target id (MessageReceived (Some m)) s in
  fst out = Normal tt
  /\ trace (snd out) = []
  /\ sockets (this (snd out)) !! id =
       Some (with_onerror IgnoreError (with_onmessage DidRecieveMessage ws))
  /\ _websocket (this (snd out)) = _websocket s.
Proof.
  intros Hws Hhandler Hget Hfalsy out. subst out.
  unfold deliver. rewrite Hws, Hhandler.
  rewrite (handshake_not_authenticated target id s r m authenticated Hget Hfalsy).
  simpl. repeat split. apply swapped_callbacks, Hws.
Qed.

Lemma attach_not_authenticated_unanswered_witness :
  let args := {| thingworxDomain := "localhost"; args_useSSL := false;
                 thingworxAppKey := "X"; thingworxPort := 8015 |} in
  let out := deliver failing_target 0
               (MessageReceived (Some (VObj [("authenticated", VBool false)])))
               (attaching failing_target 5 args) in
  trace (snd out) = []
  /\ ws_closed <$> sockets (this (snd out)) !! 0%nat = Some false.
Proof.
  intros args out.
  destruct (attach_not_authenticated_unanswered failing_target
              (attaching failing_target 5 args) 0
              {| ws_url := "ws://localhost:8015/Thingworx/ThingworxDebugger";
                 onmessage := AttachHandshake (fresh_response 5);
                 onopen := Authenticate "X";
                 onerror := AttachFailed (fresh_response 5);
                 ws_closed := false |}
              (fresh_response 5) (VObj [("authenticated", VBool false)]) (VBool false)
              eq_refl eq_refl eq_refl eq_refl) as (_ & Htrace & Hsocket & _).
  split; [exact Htrace |].
  fold out in Hsocket. rewrite Hsocket. reflexivity.
Defined.

(** C3: what the handshake does on a first frame whose [authenticated] is
    true (or truthy), against any target, in particular one whose
    [connectDebugger] call fails.  The call is invoked, but its promise is
    never awaited: the attach request is answered with success and the
    socket is left as open as it was. *)
Theorem attach_succeeds_when_connectDebugger_fails target s id ws r m authenticated :
  sockets s !! id = Some ws ->
  onmessage ws = AttachHandshake r ->
  get m "authenticated" = Some authenticated ->
  truthy authenticated = true ->
  let out := deliver target id (MessageReceived (Some m)) s in
  fst out = Normal tt
  /\ trace (snd out) = [Invoke "connectDebugger" (VObj []); SendResponse r]
  /\ sockets (this (snd out)) !! id =
       Some (with_onerror IgnoreError (with_onmessage DidRecieveMessage ws)).
Proof.
  intros Hws Hhandler Hget Htruthy out. subst out.
  unfold deliver. rewrite Hws, Hhandler.
  rewrite (handshake_authenticated target id s r m authenticated Hget Htruthy).
  simpl. repeat split. apply swapped_callbacks, Hws.
Qed.

Lemma attach_succeeds_when_connectDebugger_fails_witness :
  let args := {| thingworxDomain := "localhost"; args_useSSL := false;
                 thingworxAppKey := "X"; thingworxPort := 8015 |} in
  let out := deliver failing_target 0
               (MessageReceived (Some (VObj [("authenticated", VBool true)])))
               (attaching failing_target 5 args) in
  trace (snd out) =
    [Invoke "connectDebugger" (VObj []);
     SendResponse {| request_seq := 5; body := VUndefined |}]
  /\ ws_closed <$> sockets (this (snd out)) !! 0%nat = Some false.
Proof.
  intros args out.
  destruct (attach_succeeds_when_connectDebugger_fails failing_target
              (attaching failing_target 5 args) 0
              {| ws_url := "ws://localhost:8015/Thingworx/ThingworxDebugger";
                 onmessage := AttachHandshake (fresh_response 5);
                 onopen := Authenticate "X";
                 onerror := AttachFailed (fresh_response 5);
                 ws_closed := false |}
              (fresh_response 5) (VObj [("authenticated", VBool true)]) (VBool true)
              eq_refl eq_refl eq_refl eq_refl) as (_ & Htrace & Hsocket).
  split; [exact Htrace |].
  fold out in Hsocket. rewrite Hsocket. reflexivity.
Defined.

(** ** Push events *)

(** The steady-state callback on a frame that does not parse: the parse
    error is caught, [message] stays undefined, and reading [message.name]
    throws. *)
Lemma didRecieveMessage_unparsable s r :
  run (_didRecieveMessageWithEvent None) s r =
  (Throw, {| this := s; response := r; trace := [] |}).
Proof. reflexivity. Qed.

(** C4: what the steady-state dispatch does on a frame that does not
    parse, on any socket whose message callback is the steady-state one.
    No event is emitted and the session is unchanged, but the callback
    does not complete: it throws. *)
Theorem unparsable_push_frame_throws target s id ws :
  sockets s !! id = Some ws ->
  onmessage ws = DidRecieveMessage ->
  let out := deliver target id (MessageReceived None) s in
  fst out = Throw /\ trace (snd out) = [] /\ this (snd out) = s.
Proof.
  intros Hws Hhandler out. subst out.
  unfold deliver. rewrite Hws, Hhandler, didRecieveMessage_unparsable.
  repeat split.
Qed.

Lemma unparsable_push_frame_throws_witness :
  let args := {| thingworxDomain := "localhost"; args_useSSL := false;
                 thingworxAppKey := "X"; thingworxPort := 8015 |} in
  let attached :=
    this (snd (deliver failing_target 0
                 (MessageReceived (Some (VObj [("authenticated", VBool true)])))
                 (attaching failing_target 5 args))) in
  fst (deliver failing_target 0 (MessageReceived None) attached) = Throw.
Proof.
  intros args attached.
  apply (unparsable_push_frame_throws failing_target attached 0
           {| ws_url := "ws://localhost:8015/Thingworx/ThingworxDebugger";
              onmessage := DidRecieveMessage;
              onopen := Authenticate "X";
              onerror := IgnoreError;
              ws_closed := false |}); reflexivity.
Defined.


Example suspended_frame_emits_stopped :
  dispatch_by_name
    (VObj [("name", VStr "suspended"); ("threadID", VNum 7);
           ("reason", VStr "breakpoint")]) =
  [StoppedEvent (VStr "breakpoint") (VNum 7) VUndefined].
Proof. reflexivity. Qed.

Example log_frame_body_is_newline_terminated :
  dispatch_by_name
    (VObj [("name", VStr "log"); ("body", VStr "started"); ("level", VNum 2)]) =
  [LogOutputEvent ("started" +:+ newline) (VNum 2)].
Proof. reflexivity. Qed.

(** ** Capability negotiation *)

Lemma lookup_field_app k l1 l2 :
  lookup_field k (l1 ++ l2) =
  match lookup_field k l1 with
  | Some v => Some v
  | None => lookup_field k l2
  end.
Proof.
  induction l1 as [|[k' v'] l1 IH]; simpl; [reflexivity |].
  destruct (String.eqb k k'); [reflexivity | exact IH].
Qed.

Lemma lookup_assign_field k k' v fields :
  lookup_field k (assign_field k' v fields) =
  if String.eqb k k' then Some v else lookup_field k fields.
Proof.
  induction fields as [|[k2 v2] fields IH]; simpl.
  - destruct (String.eqb k k'); reflexivity.
  - destruct (String.eqb_spec k' k2) as [<- | Hne]; simpl.
    + destruct (String.eqb k k'); reflexivity.
    + rewrite IH. destruct (String.eqb_spec k k') as [-> | Hk]; [| reflexivity].
      apply String.eqb_neq in Hne. rewrite Hne. reflexivity.
Qed.

Lemma lookup_assign_all k props : forall fields,
  lookup_field k (assign_all props fields) =
  match lookup_field k (rev props) with
  | Some v => Some v
  | None => lookup_field k fields
  end.
Proof.
  unfold assign_all.
  induction props as [|[k' v'] props IH]; intros fields; simpl; [reflexivity |].
  rewrite IH, lookup_field_app, lookup_assign_field. simpl.
  destruct (lookup_field k (rev props)); [reflexivity |].
  destruct (String.eqb k k'); reflexivity.
Qed.

Lemma each_set_field props : forall f fields,
  body (response f) = VObj fields ->
  each (fun kv => set_field (fst kv) (snd kv)) props f =
  (Normal tt,
   {| this := this f;
      response := {| request_seq := request_seq (response f);
                     body := VObj (assign_all props fields) |};
      trace := trace f |}).
Proof.
  induction props as [|[k v] props IH]; intros [s [seq b] t] fields Hbody;
    simpl in Hbody; subst b.
  - reflexivity.
  - cbn [each]. unfold mbind, M_bind, set_field at 1, get_response, set_body. simpl.
    match goal with |- each _ props ?f = _ =>
      rewrite (IH f (assign_field k v fields) eq_refl)
    end.
    reflexivity.
Qed.

Lemma body_default_eq d f :
  body_default d f =
  (Normal tt,
   {| this := this f;
      response := {| request_seq := request_seq (response f);
                     body := or_else (body (response f)) d |};
      trace := trace f |}).
Proof. reflexivity. Qed.

(** C7: [initialize] always answers with the same capability set, in
    which supportsEvaluateForHovers and supportsSetExpression are true,
    supportsStepBack, supportsCancelRequest and supportsDataBreakpoints are
    false, and there are exactly three exception filters, [exceptions],
    [caughtExceptions] and [uncaughtExceptions], none of which supports
    conditions; the Initialized event follows the response, and nothing
    else is done. *)
Theorem initialize_capabilities s r :
  plain_body (body r) ->
  exists caps,
    run initializeRequest s r =
      (Normal tt,
       {| this := s;
          response := {| request_seq := request_seq r; body := caps |};
          trace := [SendResponse {| request_seq := request_seq r; body := caps |};
                    SendEvent InitializedEvent] |})
    /\ get caps "supportsEvaluateForHovers" = Some (VBool true)
    /\ get caps "supportsStepBack" = Some (VBool false)
    /\ get caps "supportsCancelRequest" = Some (VBool false)
    /\ get caps "supportsDataBreakpoints" = Some (VBool false)
    /\ get caps "supportsSetExpression" = Some (VBool true)
    /\ map (fun f => get f "filter") (exception_filters caps) =
         [Some (VStr "exceptions"); Some (VStr "caughtExceptions");
          Some (VStr "uncaughtExceptions")]
    /\ map (fun f => get f "supportsCondition") (exception_filters caps) =
         [Some (VBool false); Some (VBool false); Some (VBool false)].
Proof.
  intros Hbody.
  assert (exists fields, or_else (body r) (VObj []) = VObj fields) as [fields Hfields].
  { unfold or_else. destruct Hbody as [-> | [fields ->]]; eauto. }
  exists (VObj (assign_all capabilities fields)). split.
  - unfold run, initializeRequest, mbind, M_bind.
    rewrite body_default_eq. cbn [response body request_seq this trace].
    rewrite Hfields.
    match goal with |- context [each _ capabilities ?f] =>
      rewrite (each_set_field capabilities f fields eq_refl)
    end.
    reflexivity.
  - unfold exception_filters, get.
    rewrite !lookup_assign_all. repeat split.
Qed.

Lemma initialize_capabilities_witness :
  exists caps,
    handle posix_host silent_target 1 initialize new_session =
      (Normal tt,
       {| this := new_session;
          response := {| request_seq := 1; body := caps |};
          trace := [SendResponse {| request_seq := 1; body := caps |};
                    SendEvent InitializedEvent] |})
    /\ get caps "supportsStepBack" = Some (VBool false).
Proof.
  destruct (initialize_capabilities new_session (fresh_response 1) (or_introl eq_refl))
    as (caps & Hrun & _ & Hback & _).
  exists caps. split; [exact Hrun | exact Hback].
Defined.

Example initialize_on_empty_body :
  body (response (snd (run initializeRequest new_session
                         {| request_seq := 1; body := VObj [] |}))) =
  VObj capabilities.
Proof. vm_compute. reflexivity. Qed.

(** ** Rejected requests *)

(** C8: a request of the rejected set is answered with an error response,
    and with nothing else that reaches the frontend or the target: no
    remote service is invoked and the session is unchanged. *)
Theorem rejected_requests host target seq req s :
  rejected req = true ->
  let out := handle host target seq req s in
  fst out = Normal tt
  /\ (exists e rest,
        trace (snd out) = SendErrorResponse (fresh_response seq) (failure e) :: rest
        /\ responses rest = 0%nat
        /\ (e = unsupported_operation \/ e = "Launch request not supported"))
  /\ invocations (trace (snd out)) = []
  /\ this (snd out) = s.
Proof.
  intros Hreq.
  destruct req as [| | | |verbose| | | | | | | | | | | | | | | | | | | | | | | | | |];
    try discriminate Hreq; simpl;
    (split; [reflexivity |]);
    (split; [| split; reflexivity]).
  - exists "Launch request not supported", [LoggerSetup (truthy (bool_opt verbose))].
    repeat split. right. reflexivity.
  - exists unsupported_operation, []. repeat split. left. reflexivity.
  - exists unsupported_operation, []. repeat split. left. reflexivity.
  - exists unsupported_operation, []. repeat split. left. reflexivity.
  - exists unsupported_operation, []. repeat split. left. reflexivity.
  - exists unsupported_operation, []. repeat split. left. reflexivity.
  - exists unsupported_operation, []. repeat split. left. reflexivity.
  - exists unsupported_operation, []. repeat split. left. reflexivity.
  - exists unsupported_operation, []. repeat split. left. reflexivity.
  - exists unsupported_operation, []. repeat split. left. reflexivity.
Qed.

Lemma rejected_requests_witness :
  let out := handle windows_host (replying_target VNull) 12
               (custom "readMemory" (VObj [])) new_session in
  invocations (trace (snd out)) = [].
Proof.
  apply (rejected_requests windows_host (replying_target VNull) 12
           (custom "readMemory" (VObj [])) new_session).
  reflexivity.
Defined.

(** ** Continue *)

(** C10: evaluation of [continue] on every path.  The right service is
    invoked with the right argument, and the body of the response object
    is set once the call has returned; but the only response this handler
    ever sends is the error response of its [catch].  With
    [singleThread: true, threadId: t] and a call that succeeds, the trace
    ends after the call: no response carrying [allThreadsContinued] reaches
    the frontend. *)
Theorem continue_sends_no_response host target seq t s :
  let single := handle host target seq (continue t (Some true)) s in
  let all := handle host target seq (continue t None) s in
  let resumeThread := Invoke "resumeThread" (VObj [("threadID", VNum t)]) in
  let resumeAllThreads := Invoke "resumeAllThreads" (VObj []) in
  let carrying b :=
    {| request_seq := seq; body := VObj [("allThreadsContinued", VBool b)] |} in
  let failed :=
    SendErrorResponse (fresh_response seq)
      (failure "Unable to process continue request") in
  match settle (target (service_url s "resumeThread") (VObj [("threadID", VNum t)])) with
  | Fulfilled _ =>
      single = (Normal tt,
                {| this := s; response := carrying false; trace := [resumeThread] |})
  | Rejected => fst single = Normal tt /\ trace (snd single) = [resumeThread; failed]
  | Pending => fst single = Suspend /\ trace (snd single) = [resumeThread]
  end
  /\
  match settle (target (service_url s "resumeAllThreads") (VObj [])) with
  | Fulfilled _ =>
      all = (Normal tt,
             {| this := s; response := carrying true; trace := [resumeAllThreads] |})
  | Rejected => fst all = Normal tt /\ trace (snd all) = [resumeAllThreads; failed]
  | Pending => fst all = Suspend /\ trace (snd all) = [resumeAllThreads]
  end.
Proof.
  unfold handle, run. simpl handler.
  unfold continueRequest, try_catch, mbind, M_bind.
  change (truthy (bool_opt (Some true))) with true.
  change (truthy (bool_opt None)) with false.
  cbv beta iota. rewrite !await_invokeService. simpl this.
  split; destruct (settle _); simpl; auto.
Qed.

Example continue_single_thread_3 :
  handle posix_host (replying_target (VObj [("rows", VArr [])])) 9
    (continue 3 (Some true)) new_session =
  (Normal tt,
   {| this := new_session;
      response := {| request_seq := 9;
                     body := VObj [("allThreadsContinued", VBool false)] |};
      trace := [Invoke "resumeThread" (VObj [("threadID", VNum 3)])] |}).
Proof. reflexivity. Qed.

(** ** Path normalization *)

Lemma toUpperCase_idempotent c : toUpperCase (toUpperCase c) = toUpperCase c.
Proof. destruct c as [[] [] [] [] [] [] [] []]; reflexivity. Qed.

Lemma toUpperCase_backslash c :
  Ascii.eqb "\" (toUpperCase c) = Ascii.eqb "\" c.
Proof. destruct c as [[] [] [] [] [] [] [] []]; reflexivity. Qed.

Lemma replace_backslashes_clean s : has_backslash (replace_backslashes s) = false.
Proof.
  unfold has_backslash. induction s as [|c s IH]; [reflexivity |].
  cbn [replace_backslashes list_ascii_of_string existsb].
  rewrite IH, orb_false_r.
  destruct (Ascii.eqb_spec c "\") as [-> | Hc]; [reflexivity |].
  apply Ascii.eqb_neq. congruence.
Qed.

Lemma replace_backslashes_id s :
  has_backslash s = false -> replace_backslashes s = s.
Proof.
  unfold has_backslash. induction s as [|c s IH]; [reflexivity |].
  cbn [replace_backslashes list_ascii_of_string existsb].
  intros H. apply orb_false_elim in H as [Hc Hs].
  rewrite (IH Hs). rewrite Ascii.eqb_sym in Hc. rewrite Hc. reflexivity.
Qed.

Lemma replace_backslashes_idempotent s :
  replace_backslashes (replace_backslashes s) = replace_backslashes s.
Proof. apply replace_backslashes_id, replace_backslashes_clean. Qed.

(** On Windows an undefined or empty path has no first character to
    uppercase. *)
Lemma normalize_path_throws host :
  platform host = "win32" ->
  normalize_path host None = None /\ normalize_path host (Some "") = None.
Proof. intros H. unfold normalize_path. rewrite H. split; reflexivity. Qed.

(** The claim as stated fails on a path that starts with a backslash:
    only the backslashes after the first character are replaced. *)
Lemma leading_backslash_is_kept :
  normalize_path windows_host (Some "\\srv\a.ts") = Some (Some "\/srv/a.ts")
  /\ has_backslash "\/srv/a.ts" = true
  /\ invocations
       (trace (snd (handle windows_host silent_target 1
                      (setBreakpoints {| src_name := None; src_path := Some "\\srv\a.ts" |}
                         None)
                      new_session))) =
     [Invoke "setBreakpointsForFile"
        (VObj [("path", VStr "\/srv/a.ts");
               ("breakpoints", VObj [("breakpoints", VArr [])])])].
Proof. repeat split. Qed.

(** C9 (as amended): on a Windows host the transform turns a non-empty
    path into its first character uppercased followed by the rest with
    every backslash replaced by a forward slash, so that the result holds a
    backslash only where the path started with one; on any other host it is
    the identity.  It is idempotent, and a path whose first character is
    unchanged by uppercasing and which contains no backslash is returned as
    it is. *)
Theorem path_normalization host c rest :
  let p := String c rest in
  let q := String (toUpperCase c) (replace_backslashes rest) in
  normalize_path host (Some p) =
    Some (Some (if String.eqb (platform host) "win32" then q else p))
  /\ has_backslash (replace_backslashes rest) = false
  /\ has_backslash q = Ascii.eqb "\" c
  /\ (forall r, normalize_path host (Some p) = Some (Some r) ->
                normalize_path host (Some r) = Some (Some r))
  /\ (toUpperCase c = c -> has_backslash p = false ->
      normalize_path host (Some p) = Some (Some p)).
Proof.
  intros p q. subst p q.
  assert (has_backslash (String (toUpperCase c) (replace_backslashes rest)) =
          Ascii.eqb "\" c) as Hfirst.
  { unfold has_backslash. cbn [list_ascii_of_string existsb].
    fold (has_backslash (replace_backslashes rest)).
    rewrite replace_backslashes_clean, orb_false_r. apply toUpperCase_backslash. }
  unfold normalize_path.
  destruct (String.eqb (platform host) "win32").
  - split; [reflexivity |]. split; [apply replace_backslashes_clean |].
    split; [exact Hfirst |]. split.
    + intros r [= <-].
      rewrite toUpperCase_idempotent, replace_backslashes_idempotent. reflexivity.
    + intros Hc Hp. unfold has_backslash in Hp.
      cbn [list_ascii_of_string existsb] in Hp.
      apply orb_false_elim in Hp as [_ Hrest].
      rewrite Hc, (replace_backslashes_id rest Hrest). reflexivity.
  - split; [reflexivity |]. split; [apply replace_backslashes_clean |].
    split; [exact Hfirst |].
    split; [intros r [= <-] |]; reflexivity.
Qed.

Lemma path_normalization_witness :
  normalize_path windows_host (Some "c:\proj\a.ts") = Some (Some "C:/proj/a.ts")
  /\ normalize_path windows_host (Some "C:/proj/a.ts") = Some (Some "C:/proj/a.ts")
  /\ normalize_path posix_host (Some "c:\proj\a.ts") = Some (Some "c:\proj\a.ts").
Proof.
  destruct (path_normalization windows_host "c" ":\proj\a.ts") as (H1 & _).
  destruct (path_normalization windows_host "C" ":/proj/a.ts") as (_ & _ & _ & _ & H4).
  destruct (path_normalization posix_host "c" ":\proj\a.ts") as (H5 & _).
  split; [exact H1 |]. split; [| exact H5].
  apply H4; reflexivity.
Defined.

(** Both handlers pass the transformed path to the target. *)
Lemma breakpoint_handlers_send_normalized_path host target seq source path :
  normalize_path host (src_path source) = Some path ->
  (forall breakpoints s, exists rest,
     trace (snd (handle host target seq (setBreakpoints source breakpoints) s)) =
       Invoke "setBreakpointsForFile"
         (VObj [("path", str_opt path);
                ("breakpoints", VObj [("breakpoints", breakpoints_value breakpoints)])])
       :: rest
     /\ invocations rest = [])
  /\ (truthy (str_opt (src_path source)) = true ->
      forall line column endLine endColumn s, exists rest,
        trace (snd (handle host target seq
                      (breakpointLocations source line column endLine endColumn) s)) =
          ConsoleLog ("Getting breakpoints at path " +:+ to_string (str_opt path)) ::
          Invoke "getBreakpointLocationsInFile"
            (VObj [("path", str_opt path); ("line", VNum line);
                   ("column", num_opt column); ("endLine", num_opt endLine);
                   ("endColumn", num_opt endColumn)])
          :: rest
        /\ invocations rest = []).
Proof.
  intros Hpath. split.
  - intros breakpoints s. unfold handle, run. simpl handler.
    unfold setBreakPointsRequest. rewrite Hpath.
    apply (remote_handler_invokes target "setBreakpointsForFile" _ _ _ _ []);
      [intros ?; handler_body | reflexivity].
  - intros Htruthy line column endLine endColumn s. unfold handle, run. simpl handler.
    unfold breakpointLocationsRequest. rewrite Htruthy, Hpath.
    apply (remote_handler_invokes target "getBreakpointLocationsInFile" _ _ _
             {| this := s; response := fresh_response seq; trace := [ConsoleLog _] |}
             [ConsoleLog _]);
      [intros ?; handler_body | reflexivity].
Qed.

(** ** The frame-to-thread index *)

Section FrameThreadIndex.

Variable host : Host.
Variable target : Target.

(** [scopes] and [evaluate] look the frame up and pass whatever they find,
    a thread id or [undefined], to the target. *)
Lemma scopes_invokes seq frameId s :
  exists rest,
    trace (snd (handle host target seq (scopes frameId) s)) =
      Invoke "getScopesInThread"
        (VObj [("threadID", num_opt (_scopeThreadMapping s !! pretty frameId));
               ("frameID", VNum frameId)]) :: rest
    /\ invocations rest = [].
Proof.
  unfold handle, run. simpl handler.
  apply (remote_handler_invokes target "getScopesInThread" _ _ _ _ []);
    [intros ?; handler_body | reflexivity].
Qed.

Lemma evaluate_invokes seq expression frameId s :
  exists rest,
    trace (snd (handle host target seq (evaluate expression (Some frameId)) s)) =
      Invoke "evaluate"
        (VObj [("expression", VStr expression);
               ("threadID", num_opt (_scopeThreadMapping s !! pretty frameId));
               ("frameID", VNum frameId)]) :: rest
    /\ invocations rest = [].
Proof.
  unfold handle, run. simpl handler.
  apply (remote_handler_invokes target "evaluate" _ _ _ _ []);
    [intros ?; handler_body | reflexivity].
Qed.

Lemma push_field_this k x f : this (snd (push_field k x f)) = this f.
Proof.
  unfold push_field, get_field, set_field, set_body, get_response, lift, throw,
    mbind, M_bind, mret, M_ret. simpl.
  destruct (get (body (response f)) k) as [[]|]; simpl; try reflexivity.
  destruct (body (response f)); reflexivity.
Qed.

(** Assignments to the index. *)
Lemma assign_index_lookup key threadId index k :
  assign_index key threadId index !! k =
  if decide (k = key /\ key <> "__proto__") then Some threadId else index !! k.
Proof.
  unfold assign_index. destruct (decide (key = "__proto__")) as [Hproto | Hproto].
  - destruct (decide _) as [[_ H] |]; [contradiction | reflexivity].
  - destruct (decide (k = key)) as [-> | Hne].
    + rewrite lookup_insert_eq.
      destruct (decide _) as [| H]; [reflexivity | exfalso; apply H; split; auto].
    + rewrite lookup_insert_ne by congruence.
      destruct (decide _) as [[H _] |]; [contradiction | reflexivity].
Qed.

Lemma assign_index_keeps key threadId index k :
  index !! k = Some threadId -> assign_index key threadId index !! k = Some threadId.
Proof.
  intros H. rewrite assign_index_lookup. destruct (decide _); [reflexivity | exact H].
Qed.

Lemma assign_index_eq key threadId index :
  key <> "__proto__" -> assign_index key threadId index !! key = Some threadId.
Proof.
  intros H. rewrite assign_index_lookup.
  destruct (decide _) as [| Hno]; [reflexivity | exfalso; apply Hno; split; auto].
Qed.

(** The key of a number is never [__proto__]. *)
Lemma pretty_N_go_not_proto x : forall s, s <> "__proto__" -> pretty_N_go x s <> "__proto__".
Proof.
  induction (N.lt_wf_0 x) as [x _ IH]; intros s Hs.
  destruct (decide (x = 0%N)) as [-> | Hpos].
  - rewrite pretty_N_go_0. exact Hs.
  - rewrite pretty_N_go_step by lia. apply IH.
    + apply N.div_lt; lia.
    + unfold pretty_N_char. repeat case_match; discriminate.
Qed.

Lemma pretty_not_proto (n : Z) : pretty n <> "__proto__".
Proof.
  destruct n as [|p|p]; unfold pretty, pretty_Z; [discriminate | | discriminate].
  unfold pretty, pretty_positive, pretty, pretty_N.
  destruct (decide _); [discriminate |].
  apply pretty_N_go_not_proto. discriminate.
Qed.

(** One turn of the loop of [stackTraceRequest]: frames already mapped to
    the thread stay so, and a row that is processed to its end is mapped
    to it, unless its key is [__proto__]. *)
Lemma stack_frame_row_records threadId row f c f' :
  stack_frame_row host threadId row f = (c, f') ->
  (forall key, _scopeThreadMapping (this f) !! key = Some threadId ->
               _scopeThreadMapping (this f') !! key = Some threadId)
  /\ (c = Normal tt ->
      exists id, get row "id" = Some id /\
                 (to_string id <> "__proto__" ->
                  _scopeThreadMapping (this f') !! to_string id = Some threadId)).
Proof.
  unfold stack_frame_row, lift, throw, modify_this, mbind, M_bind, mret, M_ret.
  destruct (get row "source") as [source|];
    [| intros [= <- <-]; split; [auto | discriminate]].
  destruct (normalize_source host source) as [filename|];
    [| intros [= <- <-]; split; [auto | discriminate]].
  destruct (get row "id") as [id|];
    [| intros [= <- <-]; split; [auto | discriminate]].
  destruct (get row "name") as [name|];
    [| intros [= <- <-]; split; [auto | discriminate]].
  destruct (get row "line") as [line|];
    [| intros [= <- <-]; split; [auto | discriminate]].
  destruct (get row "column") as [column|];
    [| intros [= <- <-]; split; [auto | discriminate]].
  match goal with |- context [push_field ?k ?x f] =>
    pose proof (push_field_this k x f) as Hthis;
    destruct (push_field k x f) as [[[]| |] f1]
  end; simpl in Hthis; intros [= <- <-]; simpl.
  - split.
    + intros key Hkey. rewrite Hthis. apply assign_index_keeps, Hkey.
    + intros _. exists id. split; [reflexivity |].
      intros Hproto. apply assign_index_eq, Hproto.
  - rewrite Hthis. split; [auto | discriminate].
  - rewrite Hthis. split; [auto | discriminate].
Qed.

Lemma each_stack_frame_row_records threadId items :
  forall f c f',
    each (stack_frame_row host threadId) items f = (c, f') ->
    (forall key, _scopeThreadMapping (this f) !! key = Some threadId ->
                 _scopeThreadMapping (this f') !! key = Some threadId)
    /\ (c = Normal tt ->
        forall row, In row items ->
          exists id, get row "id" = Some id /\
                     (to_string id <> "__proto__" ->
                      _scopeThreadMapping (this f') !! to_string id = Some threadId)).
Proof.
  induction items as [|x items IH]; intros f c f'.
  - intros [= <- <-]. split; [auto |]. intros _ row [].
  - cbn [each]. unfold mbind, M_bind.
    destruct (stack_frame_row host threadId x f) as [[[]| |] f1] eqn:Hx;
      apply stack_frame_row_records in Hx as [Hkeep Hrow].
    + intros Hrest. apply IH in Hrest as [Hkeep' Hrows]. split; [auto |].
      intros -> row [<- | Hin].
      * destruct (Hrow eq_refl) as (id & Hid & Hmap). eauto.
      * apply Hrows; [reflexivity | assumption].
    + intros [= <- <-]. split; [auto | discriminate].
    + intros [= <- <-]. split; [auto | discriminate].
Qed.

End FrameThreadIndex.

Lemma set_field_this k v f : this (snd (set_field k v f)) = this f.
Proof.
  unfold set_field, set_body, get_response, throw, mbind, M_bind. simpl.
  destruct (body (response f)); reflexivity.
Qed.

(** A [stackTrace] that is answered with success has run its loop to the
    end: every row the target returned is mapped to the requested thread,
    unless its key is [__proto__]. *)
Lemma stackTrace_records host target seq threadId s frames rows items r :
  settle (target (service_url s "getStackTraceInThread")
            (VObj [("threadID", VNum threadId)])) = Fulfilled frames ->
  get frames "rows" = Some rows ->
  iterate rows = Some items ->
  let out := handle host target seq (stackTrace threadId) s in
  In (SendResponse r) (trace (snd out)) ->
  forall row, In row items ->
    exists id, get row "id" = Some id /\
               (to_string id <> "__proto__" ->
                _scopeThreadMapping (this (snd out)) !! to_string id = Some threadId).
Proof.
  intros Hsettle Hrows Hiter out. subst out.
  unfold handle, run. simpl handler.
  unfold stackTraceRequest, try_catch, for_of, mbind, M_bind.
  rewrite await_invokeService. simpl this. rewrite Hsettle.
  simpl. rewrite Hrows. simpl. rewrite Hiter. simpl.
  match goal with |- context [each ?k items ?f] =>
    destruct (local_each k items (local_stack_frame_row host threadId) f) as [Htrace Hpark];
    destruct (each k items f) as [[[]| |] f1] eqn:Hloop
  end; simpl in Htrace, Hpark;
    apply each_stack_frame_row_records in Hloop as [_ Hall].
  - intros _ row Hin. destruct (Hall eq_refl row Hin) as (id & Hid & Hmap).
    exists id. split; [exact Hid |].
    destruct (length_of rows) as [total|]; simpl; [| exact Hmap].
    pose proof (set_field_this "totalFrames" total f1) as Hset.
    destruct (set_field "totalFrames" total f1) as [[[]| |] f2]; simpl in Hset |- *;
      rewrite Hset; exact Hmap.
  - simpl. rewrite Htrace. simpl. intros [H | [H | []]]; discriminate H.
  - contradiction.
Qed.




(** * Further properties of the session *)

(** ** The outcome of a service call *)

(** [invokeService] hands back the parsed body exactly when the target
    answered with status 200 and a body that parses; it is left waiting
    exactly when the target never answers; in every case the call has been
    issued, once. *)
Theorem invokeService_outcome target n a f :
  let out := await (invokeService target n a) f in
  let reply := target (service_url (this f) n) a in
  snd out = invoked n a f
  /\ (forall v, fst out = Normal v <-> reply = HttpResponse 200 (Some v))
  /\ (fst out = Suspend <-> reply = NoReply)
  /\ (fst out = Throw <->
      reply = TransportError
      \/ (exists code parsed, reply = HttpResponse code parsed /\ code <> 200)
      \/ reply = HttpResponse 200 None).
Proof.
  intros out reply. subst out. rewrite await_invokeService. fold reply.
  destruct reply as [| |code parsed]; simpl.
  - split; [reflexivity |]. split; [intros v; split; discriminate |].
    split; [split; reflexivity |].
    split; [discriminate |]. intros [H | [(c & p & H & _) | H]]; discriminate H.
  - split; [reflexivity |]. split; [intros v; split; discriminate |].
    split; [split; discriminate |]. split; [auto | reflexivity].
  - destruct (Z.eqb_spec code 200) as [-> | Hcode]; simpl.
    + destruct parsed as [v|]; simpl.
      * split; [reflexivity |]. split; [intros w; split; congruence |].
        split; [split; discriminate |]. split; [discriminate |].
        intros [H | [(c & p & [= <- <-] & Hne) | H]]; [discriminate H | | discriminate H].
        contradiction.
      * split; [reflexivity |]. split; [intros w; split; discriminate |].
        split; [split; discriminate |]. split; [auto | reflexivity].
    + split; [reflexivity |]. split; [intros w; split; [discriminate | congruence] |].
      split; [split; discriminate |]. split; [| reflexivity].
      intros _. right. left. eauto.
Qed.

Lemma invokeService_outcome_witness :
  fst (await (invokeService (replying_target (VNum 1)) "getThreads" (VObj []))
         {| this := new_session; response := fresh_response 1; trace := [] |}) =
  Normal (VNum 1).
Proof.
  apply (invokeService_outcome (replying_target (VNum 1)) "getThreads" (VObj [])
           {| this := new_session; response := fresh_response 1; trace := [] |}).
  reflexivity.
Defined.

(** ** Loops that fill an array of the response body *)

Lemma each_ext {A} (k1 k2 : A -> M unit) l :
  (forall x f, k1 x f = k2 x f) -> forall f, each k1 l f = each k2 l f.
Proof.
  intros Hk. induction l as [|x l IH]; intros f; [reflexivity |].
  cbn [each]. unfold mbind, M_bind. rewrite Hk.
  destruct (k2 x f) as [[[]| |] f1]; [apply IH | reflexivity | reflexivity].
Qed.

Lemma assign_field_same k v fields :
  lookup_field k fields = Some v -> assign_field k v fields = fields.
Proof.
  induction fields as [|[k' v'] fields IH]; simpl; [discriminate |].
  destruct (String.eqb_spec k k') as [<- | Hne].
  - intros [= ->]. reflexivity.
  - intros H. rewrite (IH H). reflexivity.
Qed.

Lemma assign_field_twice k v1 v2 fields :
  assign_field k v2 (assign_field k v1 fields) = assign_field k v2 fields.
Proof.
  induction fields as [|[k' v'] fields IH]; simpl.
  - rewrite String.eqb_refl. reflexivity.
  - destruct (String.eqb_spec k k') as [<- | Hne]; simpl.
    + rewrite String.eqb_refl. reflexivity.
    + apply String.eqb_neq in Hne. rewrite Hne, IH. reflexivity.
Qed.

Lemma with_body_id f : with_body (body (response f)) f = f.
Proof. destruct f as [s [seq b] t]. reflexivity. Qed.

Lemma push_field_eq k x f fields acc :
  body (response f) = VObj fields ->
  lookup_field k fields = Some (VArr acc) ->
  push_field k x f =
  (Normal tt, with_body (VObj (assign_field k (VArr (acc ++ [x])) fields)) f).
Proof.
  intros Hbody Hk.
  unfold push_field, get_field, set_field, set_body, get_response, lift,
    mbind, M_bind, mret, M_ret, with_body. simpl.
  rewrite Hbody. simpl. rewrite Hk. simpl. rewrite Hbody. reflexivity.
Qed.

Lemma lift_bind_some {A B} (x : A) (k : A -> M B) f :
  (lift (Some x) ≫= k) f = k x f.
Proof. reflexivity. Qed.

(** A loop that pushes one translated element per row: when every row
    translates, the array grows by the translations, in order. *)
Lemma each_push k (g : value -> option value) items :
  forall f fields acc xs,
    body (response f) = VObj fields ->
    lookup_field k fields = Some (VArr acc) ->
    mapM g items = Some xs ->
    each (fun row => x ← lift (g row); push_field k x) items f =
    (Normal tt, with_body (VObj (assign_field k (VArr (acc ++ xs)) fields)) f).
Proof.
  induction items as [|row items IH]; intros f fields acc xs Hbody Hk Hxs.
  - injection Hxs as <-. rewrite app_nil_r, (assign_field_same _ _ _ Hk), <- Hbody.
    simpl. rewrite with_body_id. reflexivity.
  - simpl in Hxs. destruct (g row) as [x|] eqn:Hrow; [| discriminate Hxs].
    destruct (mapM g items) as [xs'|] eqn:Hrest; [| discriminate Hxs].
    injection Hxs as <-.
    cbn [each]. unfold mbind at 1, M_bind at 1.
    rewrite Hrow, lift_bind_some.
    rewrite (push_field_eq k x f fields acc Hbody Hk).
    rewrite (IH (with_body (VObj (assign_field k (VArr (acc ++ [x])%list) fields)) f)
               (assign_field k (VArr (acc ++ [x])%list) fields) (acc ++ [x])%list xs'
               eq_refl); [| | reflexivity].
    + unfold with_body. simpl. rewrite assign_field_twice, <- app_assoc. reflexivity.
    + rewrite lookup_assign_field, String.eqb_refl. reflexivity.
Qed.

(** When some row does not translate, the loop throws, having sent
    nothing. *)
Lemma each_push_throws k (g : value -> option value) items f :
  mapM g items = None ->
  (exists acc fields, body (response f) = VObj fields
                      /\ lookup_field k fields = Some (VArr acc)) ->
  fst (each (fun row => x ← lift (g row); push_field k x) items f) = Throw.
Proof.
  revert f. induction items as [|row items IH]; intros f Hnone (acc & fields & Hbody & Hk).
  - discriminate Hnone.
  - simpl in Hnone. cbn [each]. unfold mbind at 1, M_bind at 1.
    destruct (g row) as [x|] eqn:Hrow; [| reflexivity].
    rewrite lift_bind_some.
    rewrite (push_field_eq k x f fields acc Hbody Hk).
    apply IH.
    + destruct (mapM g items); [discriminate Hnone | reflexivity].
    + exists (acc ++ [x])%list, (assign_field k (VArr (acc ++ [x])%list) fields).
      split; [reflexivity |]. rewrite lookup_assign_field, String.eqb_refl. reflexivity.
Qed.

Lemma get_payload v k : nullish v = false -> get v k = Some (payload v k).
Proof. destruct v; simpl; intros H; first [discriminate H | reflexivity]. Qed.

Lemma get_nullish v k : nullish v = true -> get v k = None.
Proof. destruct v; simpl; intros H; first [discriminate H | reflexivity]. Qed.

Lemma project_payload row keys :
  nullish row = false ->
  project row keys = Some (map (fun kf => (fst kf, payload row (snd kf))) keys).
Proof.
  intros Hrow. induction keys as [|[k f] keys IH]; simpl; [reflexivity |].
  rewrite (get_payload row f Hrow), IH. reflexivity.
Qed.

Lemma project_nullish row keys :
  nullish row = true -> keys <> [] -> project row keys = None.
Proof.
  intros Hrow Hkeys. destruct keys as [|[k f] keys]; [contradiction |].
  simpl. rewrite (get_nullish row f Hrow). reflexivity.
Qed.

Lemma mapM_map {A B} (g : A -> option B) (h : A -> B) l :
  Forall (fun x => g x = Some (h x)) l -> mapM g l = Some (map h l).
Proof.
  intros H. apply mapM_Some. induction H; constructor; assumption.
Qed.

(** ** Results translated row by row *)

#[local] Arguments project : simpl never.

(** Rewrites the loop of the goal into [x ← lift (g row); push_field k x]
    and runs it with [each_push]. *)
Ltac push_loop k g xs Hmap :=
  match goal with
  | |- context [each ?body ?items ?f] =>
      rewrite (each_ext body (fun row => x ← lift (g row); push_field k x) items);
      [ rewrite (each_push k g items f [(k, VArr [])] [] xs eq_refl eq_refl Hmap)
      | let row := fresh "row" in
        let f0 := fresh "f" in
        intros row f0;
        cbv beta delta [breakpoint_row location_row thread_row scope_row];
        unfold mbind, M_bind, option_bind, lift, throw, mret, M_ret;
        repeat match goal with
               | |- context [match ?o with Some _ => _ | None => _ end] =>
                   destruct o
               end;
        reflexivity ]
  end.

(** [threadsRequest]: when every row of the result has a numeric [ID],
    one that [toFixed] writes with all its digits, the response lists one
    thread per row, in order, named "Thread" followed by its id. *)
Theorem threads_rows host target seq s result items ids :
  target (service_url s "getThreads") (VObj []) = HttpResponse 200 (Some result) ->
  get result "rows" = Some (VArr items) ->
  Forall2 (fun row n => get row "ID" = Some (VNum n)) items ids ->
  Forall printable ids ->
  let answer :=
    {| request_seq := seq; body := VObj [("threads", VArr (map thread_named ids))] |} in
  handle host target seq threads s =
  (Normal tt,
   {| this := s; response := answer;
      trace := [Invoke "getThreads" (VObj []); SendResponse answer] |}).
Proof.
  intros Htarget Hrows Hids _ answer. subst answer.
  assert (mapM thread_row items = Some (map thread_named ids)) as Hmap.
  { apply mapM_Some, Forall2_fmap_r.
    eapply Forall2_impl; [exact Hids |]. intros row n H. unfold thread_row.
    rewrite H. reflexivity. }
  unfold handle, run. simpl handler.
  unfold threadsRequest, try_catch, for_of, mbind, M_bind.
  rewrite await_invokeService. simpl this. rewrite Htarget. simpl.
  rewrite Hrows. simpl.
  push_loop "threads" thread_row (map thread_named ids) Hmap.
  reflexivity.
Qed.

(** [setBreakPointsRequest]: the target is called with the normalized
    path, and the response lists one breakpoint per row of the result, in
    order, each carrying the source of the request. *)
Theorem setBreakpoints_rows host target seq s source breakpoints path result items :
  normalize_path host (src_path source) = Some path ->
  target (service_url s "setBreakpointsForFile")
    (VObj [("path", str_opt path);
           ("breakpoints", VObj [("breakpoints", breakpoints_value breakpoints)])]) =
    HttpResponse 200 (Some result) ->
  get result "rows" = Some (VArr items) ->
  Forall (fun row => nullish row = false) items ->
  let answer :=
    {| request_seq := seq;
       body := VObj [("breakpoints", VArr (map (breakpoint_of source) items))] |} in
  handle host target seq (setBreakpoints source breakpoints) s =
  (Normal tt,
   {| this := s; response := answer;
      trace := [Invoke "setBreakpointsForFile"
                  (VObj [("path", str_opt path);
                         ("breakpoints",
                          VObj [("breakpoints", breakpoints_value breakpoints)])]);
                SendResponse answer] |}).
Proof.
  intros Hpath Htarget Hrows Hitems answer. subst answer.
  assert (mapM (breakpoint_row source) items = Some (map (breakpoint_of source) items))
    as Hmap.
  { apply mapM_map. eapply Forall_impl; [exact Hitems |]. intros row Hrow.
    unfold breakpoint_row. rewrite (project_payload row _ Hrow). reflexivity. }
  unfold handle, run. simpl handler.
  unfold setBreakPointsRequest, try_catch, for_of, mbind, M_bind.
  rewrite Hpath. unfold lift at 1. unfold mret, M_ret. cbv beta iota.
  rewrite await_invokeService. simpl this. rewrite Htarget. simpl.
  rewrite Hrows. simpl.
  push_loop "breakpoints" (breakpoint_row source) (map (breakpoint_of source) items) Hmap.
  reflexivity.
Qed.

(** [breakpointLocationsRequest], with a path: one location per row. *)
Theorem breakpointLocations_rows host target seq s source line column endLine endColumn
    path result items :
  truthy (str_opt (src_path source)) = true ->
  normalize_path host (src_path source) = Some path ->
  let call :=
    VObj [("path", str_opt path); ("line", VNum line); ("column", num_opt column);
          ("endLine", num_opt endLine); ("endColumn", num_opt endColumn)] in
  target (service_url s "getBreakpointLocationsInFile") call =
    HttpResponse 200 (Some result) ->
  get result "rows" = Some (VArr items) ->
  Forall (fun row => nullish row = false) items ->
  let answer :=
    {| request_seq := seq;
       body := VObj [("breakpoints", VArr (map location_of items))] |} in
  handle host target seq (breakpointLocations source line column endLine endColumn) s =
  (Normal tt,
   {| this := s; response := answer;
      trace := [ConsoleLog ("Getting breakpoints at path " +:+ to_string (str_opt path));
                Invoke "getBreakpointLocationsInFile" call;
                SendResponse answer] |}).
Proof.
  intros Htruthy Hpath call Htarget Hrows Hitems answer. subst answer call.
  assert (mapM location_row items = Some (map location_of items)) as Hmap.
  { apply mapM_map. eapply Forall_impl; [exact Hitems |]. intros row Hrow.
    unfold location_row. rewrite (project_payload row _ Hrow). reflexivity. }
  unfold handle, run. simpl handler.
  unfold breakpointLocationsRequest. rewrite Htruthy.
  unfold try_catch, for_of, mbind, M_bind.
  rewrite Hpath. unfold lift at 1. unfold mret, M_ret. cbv beta iota.
  unfold emit at 1. cbv beta iota.
  rewrite await_invokeService. simpl this. rewrite Htarget. simpl.
  rewrite Hrows. simpl.
  push_loop "breakpoints" location_row (map location_of items) Hmap.
  reflexivity.
Qed.


Lemma mapM_Some_id {A} (l : list A) : mapM (@Some A) l = Some l.
Proof. apply mapM_Some. induction l; constructor; auto. Qed.

(** [variablesRequest]: the rows are handed on as they are. *)
Theorem variables_rows host target seq s variablesReference filter start count
    result items :
  let call :=
    VObj [("reference", VNum variablesReference); ("filter", str_opt filter);
          ("start", num_opt start); ("count", num_opt count)] in
  target (service_url s "getVariableContents") call = HttpResponse 200 (Some result) ->
  get result "rows" = Some (VArr items) ->
  let answer :=
    {| request_seq := seq; body := VObj [("variables", VArr items)] |} in
  handle host target seq (variables variablesReference filter start count) s =
  (Normal tt,
   {| this := s; response := answer;
      trace := [Invoke "getVariableContents" call; SendResponse answer] |}).
Proof.
  intros call Htarget Hrows answer. subst answer call.
  pose proof (mapM_Some_id items) as Hmap.
  unfold handle, run. simpl handler.
  unfold variablesRequest, try_catch, for_of, mbind, M_bind.
  rewrite await_invokeService. simpl this. rewrite Htarget. simpl.
  rewrite Hrows. simpl.
  push_loop "variables" (@Some value) items Hmap.
  reflexivity.
Qed.

(** [exceptionInfoRequest]: the result of the target is the body of the
    response, whatever it is. *)
Theorem exceptionInfo_verbatim host target seq s threadId details :
  target (service_url s "getExceptionDetails") (VObj [("threadID", VNum threadId)]) =
    HttpResponse 200 (Some details) ->
  let answer := {| request_seq := seq; body := details |} in
  handle host target seq (exceptionInfo threadId) s =
  (Normal tt,
   {| this := s; response := answer;
      trace := [Invoke "getExceptionDetails" (VObj [("threadID", VNum threadId)]);
                SendResponse answer] |}).
Proof.
  intros Htarget answer. subst answer.
  unfold handle, run. simpl handler.
  unfold exceptionInfoRequest, try_catch, mbind, M_bind.
  rewrite await_invokeService. simpl this. rewrite Htarget. reflexivity.
Qed.

Lemma first_row_get result row :
  first_row result = Some row ->
  exists rows, get result "rows" = Some rows /\ index0 rows = Some row
               /\ nullish row = false.
Proof.
  unfold first_row. destruct (get result "rows") as [rows|] eqn:Hrows; [| discriminate].
  simpl. destruct (index0 rows) as [row'|] eqn:Hfirst; [| discriminate]. simpl.
  destruct (nullish row') eqn:Hrow; [discriminate |]. intros [= <-].
  exists rows. split; [reflexivity |]. split; assumption.
Qed.


(** [setVariableRequest]: likewise, from the first row. *)
Theorem setVariable_first_row host target seq s variablesReference name value result row :
  let call :=
    VObj [("reference", VNum variablesReference); ("name", VStr name);
          ("value", VStr value)] in
  target (service_url s "setVariable") call = HttpResponse 200 (Some result) ->
  first_row result = Some row ->
  let answer :=
    {| request_seq := seq;
       body := VObj [("value", payload row "value");
                     ("variablesReference", payload row "variablesReference");
                     ("type", payload row "type");
                     ("indexedVariables", payload row "indexedVariables");
                     ("namedVariables", payload row "namedVariables")] |} in
  handle host target seq (setVariable variablesReference name value) s =
  (Normal tt,
   {| this := s; response := answer;
      trace := [Invoke "setVariable" call; SendResponse answer] |}).
Proof.
  intros call Htarget Hrow answer. subst answer call.
  apply first_row_get in Hrow as (rows & Hrows & Hfirst & Hrow).
  unfold handle, run. simpl handler.
  unfold setVariableRequest, copy_first_row, try_catch, mbind, M_bind.
  rewrite await_invokeService. simpl this. rewrite Htarget. simpl.
  rewrite Hrows. simpl. rewrite Hfirst. simpl.
  rewrite !(get_payload row _ Hrow). reflexivity.
Qed.

(** Without a first row to read from, both requests fail: an error
    response is all the frontend gets. *)
Theorem no_first_row_fails host target seq s req result :
  (exists expression frameId, req = evaluate expression frameId)
  \/ (exists variablesReference name value, req = setVariable variablesReference name value) ->
  (forall url a, target url a = HttpResponse 200 (Some result)) ->
  first_row result = None ->
  exists n a r e,
    handle host target seq req s =
    (Normal tt,
     {| this := s; response := r;
        trace := [Invoke n a; SendErrorResponse r (failure e)] |}).
Proof.
  intros Hreq Htarget Hnone.
  assert (forall rows, get result "rows" = Some rows ->
          forall row, index0 rows = Some row -> nullish row = true) as Hnull.
  { intros rows Hrows row Hfirst. unfold first_row in Hnone.
    rewrite Hrows in Hnone. simpl in Hnone. rewrite Hfirst in Hnone. simpl in Hnone.
    destruct (nullish row); [reflexivity | discriminate Hnone]. }
  destruct Hreq as [(expression & frameId & ->) | (variablesReference & name & value & ->)];
    unfold handle, run; simpl handler.
  - unfold evaluateRequest, try_catch, mbind, M_bind.
    unfold get_this at 1. cbv beta iota.
    rewrite await_invokeService. simpl this. rewrite Htarget. simpl.
    destruct (get result "rows") as [rows|] eqn:Hrows; simpl; [| eexists _, _, _, _; reflexivity].
    destruct (index0 rows) as [row|] eqn:Hfirst; simpl; [| eexists _, _, _, _; reflexivity].
    rewrite (project_nullish row _ (Hnull rows eq_refl row Hfirst)) by discriminate.
    simpl. eexists _, _, _, _; reflexivity.
  - unfold setVariableRequest, copy_first_row, try_catch, mbind, M_bind.
    rewrite await_invokeService. simpl this. rewrite Htarget. simpl.
    destruct (get result "rows") as [rows|] eqn:Hrows; simpl; [| eexists _, _, _, _; reflexivity].
    destruct (index0 rows) as [row|] eqn:Hfirst; simpl; [| eexists _, _, _, _; reflexivity].
    rewrite (get_nullish row _ (Hnull rows eq_refl row Hfirst)).
    simpl. eexists _, _, _, _; reflexivity.
Qed.

(** A result whose [rows] cannot be walked through (no result object, no
    [rows], or [rows] that is neither an array nor a string): the handler
    either made no call at all, or it answers with an error response and
    leaves the session alone. *)
Lemma unlistable_rows_shape host target seq s req result :
  lists_rows req = true ->
  (forall url a, target url a = HttpResponse 200 (Some result)) ->
  get result "rows" ≫= iterate = None ->
  invocations (trace (snd (handle host target seq req s))) = []
  \/ exists pre n a r e,
       handle host target seq req s =
       (Normal tt,
        {| this := s; response := r;
           trace := pre ++ [Invoke n a; SendErrorResponse r (failure e)] |})
       /\ responses pre = 0%nat.
Proof.
  intros Hreq Htarget Hnone.
  assert (forall rows, get result "rows" = Some rows -> iterate rows = None) as Hiter.
  { intros rows Hrows. rewrite Hrows in Hnone. exact Hnone. }
  destruct req; try discriminate Hreq; unfold handle, run; simpl handler.
  - unfold setBreakPointsRequest.
    destruct (normalize_path host (src_path source)) as [path|]; [| left; reflexivity].
    right. unfold try_catch, for_of, mbind, M_bind.
    unfold lift at 1. unfold mret, M_ret. cbv beta iota.
    rewrite await_invokeService. simpl this. rewrite Htarget. simpl.
    destruct (get result "rows") as [rows|] eqn:Hrows; simpl;
      [rewrite (Hiter rows eq_refl); simpl |];
      exists []; eexists _, _, _, _; split; reflexivity.
  - unfold breakpointLocationsRequest.
    destruct (truthy (str_opt (src_path source))); [| left; reflexivity].
    destruct (normalize_path host (src_path source)) as [path|]; [| left; reflexivity].
    right. unfold try_catch, for_of, mbind, M_bind.
    unfold lift at 1. unfold mret, M_ret. cbv beta iota.
    unfold emit at 1. cbv beta iota.
    rewrite await_invokeService. simpl this. rewrite Htarget. simpl.
    destruct (get result "rows") as [rows|] eqn:Hrows; simpl;
      [rewrite (Hiter rows eq_refl); simpl |];
      eexists [_], _, _, _, _; split; reflexivity.
  - right. unfold threadsRequest, try_catch, for_of, mbind, M_bind.
    rewrite await_invokeService. simpl this. rewrite Htarget. simpl.
    destruct (get result "rows") as [rows|] eqn:Hrows; simpl;
      [rewrite (Hiter rows eq_refl); simpl |];
      exists []; eexists _, _, _, _; split; reflexivity.
  - right. unfold stackTraceRequest, try_catch, for_of, mbind, M_bind.
    rewrite await_invokeService. simpl this. rewrite Htarget. simpl.
    destruct (get result "rows") as [rows|] eqn:Hrows; simpl;
      [rewrite (Hiter rows eq_refl); simpl |];
      exists []; eexists _, _, _, _; split; reflexivity.
  - right. unfold scopesRequest, try_catch, for_of, mbind, M_bind.
    unfold get_this at 1. cbv beta iota.
    rewrite await_invokeService. simpl this. rewrite Htarget. simpl.
    destruct (get result "rows") as [rows|] eqn:Hrows; simpl;
      [rewrite (Hiter rows eq_refl); simpl |];
      exists []; eexists _, _, _, _; split; reflexivity.
  - right. unfold variablesRequest, try_catch, for_of, mbind, M_bind.
    rewrite await_invokeService. simpl this. rewrite Htarget. simpl.
    destruct (get result "rows") as [rows|] eqn:Hrows; simpl;
      [rewrite (Hiter rows eq_refl); simpl |];
      exists []; eexists _, _, _, _; split; reflexivity.
Qed.

(** The six requests that list rows, on a result whose rows cannot be
    listed: whenever the call was made, the request is answered with an
    error response, never with a success, and the session is unchanged. *)
Theorem unlistable_rows_fail host target seq s req result :
  lists_rows req = true ->
  (forall url a, target url a = HttpResponse 200 (Some result)) ->
  get result "rows" ≫= iterate = None ->
  let out := handle host target seq req s in
  invocations (trace (snd out)) <> [] ->
  fst out = Normal tt
  /\ this (snd out) = s
  /\ responses (trace (snd out)) = 1%nat
  /\ forall r, ~ In (SendResponse r) (trace (snd out)).
Proof.
  intros Hreq Htarget Hnone out Hcalled. subst out.
  destruct (unlistable_rows_shape host target seq s req result Hreq Htarget Hnone)
    as [Hno | (pre & n & a & r & e & Hout & Hpre)]; [contradiction |].
  rewrite Hout. simpl. split; [reflexivity |]. split; [reflexivity |]. split.
  - rewrite responses_app, Hpre. reflexivity.
  - intros r' Hin. apply in_app_or in Hin as [Hin | [Hin | [Hin | []]]];
      try discriminate Hin.
    assert (responses pre <> 0%nat) as Hne; [| contradiction].
    clear -Hin. unfold responses. induction pre as [|x pre IH]; [destruct Hin |].
    simpl. destruct Hin as [-> | Hin]; [simpl; discriminate |].
    destruct (is_response x); [simpl; discriminate | apply IH, Hin].
Qed.

Lemma unlistable_rows_fail_witness :
  let out := handle posix_host (replying_target VNull) 3 threads new_session in
  responses (trace (snd out)) = 1%nat /\ forall r, ~ In (SendResponse r) (trace (snd out)).
Proof.
  intros out.
  destruct (unlistable_rows_fail posix_host (replying_target VNull) 3 new_session threads
              VNull eq_refl (fun _ _ => eq_refl) eq_refl) as (_ & _ & H1 & H2).
  - discriminate.
  - split; assumption.
Defined.

(** ** The stack trace *)

Lemma session_eta s : with_scopeThreadMapping (_scopeThreadMapping s) s = s.
Proof. destruct s. reflexivity. Qed.

Lemma stack_frame_row_eq host threadId row src f fields acc :
  nullish row = false ->
  get row "source" = Some (VStr src) ->
  body (response f) = VObj fields ->
  lookup_field "stackFrames" fields = Some (VArr acc) ->
  stack_frame_row host threadId row f =
  (Normal tt,
   {| this := with_scopeThreadMapping
                (assign_index (to_string (payload row "id")) threadId
                   (_scopeThreadMapping (this f))) (this f);
      response :=
        {| request_seq := request_seq (response f);
           body := VObj (assign_field "stackFrames"
                           (VArr (acc ++ [frame_of host row src])) fields) |};
      trace := trace f |}).
Proof.
  intros Hrow Hsrc Hbody Hk.
  unfold stack_frame_row. unfold mbind at 1, M_bind at 1.
  rewrite Hsrc. unfold lift at 1, mret at 1, M_ret at 1. cbv beta iota.
  unfold mbind at 1, M_bind at 1. simpl normalize_source.
  unfold lift at 1, mret at 1, M_ret at 1. cbv beta iota.
  rewrite !(get_payload row _ Hrow).
  unfold mbind, M_bind, lift, mret, M_ret. cbv beta iota.
  rewrite (push_field_eq "stackFrames" _ f fields acc Hbody Hk).
  reflexivity.
Qed.

Lemma each_stack_frame_row_eq host threadId items srcs :
  Forall2 (fun row src => nullish row = false /\ get row "source" = Some (VStr src))
    items srcs ->
  forall f fields acc,
    body (response f) = VObj fields ->
    lookup_field "stackFrames" fields = Some (VArr acc) ->
    each (stack_frame_row host threadId) items f =
    (Normal tt,
     {| this := with_scopeThreadMapping
                  (record_frames threadId items (_scopeThreadMapping (this f))) (this f);
        response :=
          {| request_seq := request_seq (response f);
             body := VObj (assign_field "stackFrames"
                             (VArr (acc ++ zip_with (frame_of host) items srcs))
                             fields) |};
        trace := trace f |}).
Proof.
  induction 1 as [|row src items srcs [Hrow Hsrc] _ IH]; intros f fields acc Hbody Hk.
  - simpl. rewrite app_nil_r, (assign_field_same _ _ _ Hk), <- Hbody, session_eta.
    destruct f as [s [seq b] t]. reflexivity.
  - cbn [each]. unfold mbind, M_bind.
    rewrite (stack_frame_row_eq host threadId row src f fields acc Hrow Hsrc Hbody Hk).
    match goal with |- each _ items ?f1 = _ =>
      rewrite (IH f1 (assign_field "stackFrames" (VArr (acc ++ [frame_of host row src])%list)
                        fields) (acc ++ [frame_of host row src])%list eq_refl)
    end.
    + simpl. rewrite assign_field_twice, <- app_assoc. reflexivity.
    + rewrite lookup_assign_field. reflexivity.
Qed.

(** What the index holds after frames have been recorded: a key other
    than [__proto__] is mapped to the thread when one of the rows has it,
    and every other key is mapped as before. *)
Lemma record_frames_lookup threadId rows : forall index key,
  record_frames threadId rows index !! key =
  if decide (key ∈ map (fun row => to_string (payload row "id")) rows
             /\ key <> "__proto__")
  then Some threadId else index !! key.
Proof.
  unfold record_frames.
  induction rows as [|row rows IH]; intros index key; cbn [fold_left map].
  - destruct (decide _) as [[Hin _] | _]; [| reflexivity].
    apply elem_of_nil in Hin. contradiction.
  - rewrite IH, assign_index_lookup.
    destruct (decide (key ∈ map (fun row => to_string (payload row "id")) rows
                      /\ key <> "__proto__")) as [[Hin Hkey] | Hnotin];
      destruct (decide (key ∈ to_string (payload row "id")
                          :: map (fun row => to_string (payload row "id")) rows
                        /\ key <> "__proto__")) as [[Hin' Hkey'] | Hnotin'].
    + reflexivity.
    + exfalso. apply Hnotin'. split; [apply elem_of_cons; auto | exact Hkey].
    + apply elem_of_cons in Hin' as [-> | Hin']; [| exfalso; apply Hnotin; auto].
      destruct (decide _) as [| Hno]; [reflexivity |].
      exfalso. apply Hno. auto.
    + destruct (decide _) as [[-> Hkey] |]; [| reflexivity].
      exfalso. apply Hnotin'. split; [apply elem_of_cons; auto | exact Hkey].
Qed.


(** ** Attaching *)

Lemma alter_last {A} (g : A -> A) (l : list A) (w : A) :
  alter g (length l) (l ++ [w])%list = (l ++ [g w])%list.
Proof.
  rewrite <- (Nat.add_0_r (length l)) at 1. rewrite alter_app_r. reflexivity.
Qed.

Lemma to_int32_small n : - 2 ^ 31 <= n < 2 ^ 31 -> to_int32 n = n.
Proof. intros H. unfold to_int32. rewrite Z.mod_small; lia. Qed.

Lemma attach_outcome host target seq args s :
  websocket_accepts host (ws_url (attach_socket seq args)) = true ->
  handle host target seq (attach args) s =
  (Normal tt,
   {| this :=
        {| _websocket := Some (length (sockets s));
           appKey := Some (thingworxAppKey args);
           domain := Some (thingworxDomain args);
           port := Some (pretty (thingworxPort args));
           useSSL := Some (args_useSSL args);
           _cancellationTokens := _cancellationTokens s;
           _scopeThreadMapping := _scopeThreadMapping s;
           sockets := (sockets s ++ [attach_socket seq args])%list |};
      response := fresh_response seq;
      trace := [NewWebSocket (length (sockets s)) (ws_url (attach_socket seq args))] |}).
Proof.
  intros Haccepts. unfold handle, run. simpl handler.
  unfold attachRequest, new_websocket, update_socket, modify_this, get_this, get_response,
    emit, mbind, M_bind, mret, M_ret.
  cbn [ws_url attach_socket] in Haccepts. rewrite Haccepts.
  simpl. rewrite !alter_last. reflexivity.
Qed.

(** Where the socket constructor throws, so does [attachRequest]: the
    connection parameters have been stored by then, and that is all. *)
Lemma attach_refused host target seq args s :
  websocket_accepts host (ws_url (attach_socket seq args)) = false ->
  handle host target seq (attach args) s =
  (Throw,
   {| this := with_connection (thingworxDomain args) (pretty (thingworxPort args))
                (args_useSSL args) (thingworxAppKey args) s;
      response := fresh_response seq;
      trace := [] |}).
Proof.
  intros Hrefuses. unfold handle, run. simpl handler.
  unfold attachRequest, new_websocket, modify_this, throw, mbind, M_bind.
  cbn [ws_url attach_socket] in Hrefuses. rewrite Hrefuses. reflexivity.
Qed.

(** [attachRequest] stores the connection parameters, so that every later
    service call goes to the attached server (the port is written with all
    its digits below 10^21).  Where the socket constructor accepts the
    address, the handler opens one more socket, which becomes the session's
    socket, sends nothing to the frontend and leaves the earlier sockets
    alone; where the constructor throws, so does the handler, and there is
    no new socket.  Either way the frame index and the cancellation tokens
    are as before.  For a port in the 32-bit range the address of the
    socket has the very port the service calls use. *)
Theorem attach_connection host target seq args s :
  let url := ws_url (attach_socket seq args) in
  let out := handle host target seq (attach args) s in
  let s' := this (snd out) in
  let id := length (sockets s) in
  (printable (thingworxPort args) ->
   forall name,
     service_url s' name =
     (if args_useSSL args then "https" else "http") +:+ "://"
     +:+ thingworxDomain args +:+ ":" +:+ pretty (thingworxPort args)
     +:+ "/Thingworx/Things/BMDebugServer/Services/" +:+ name)
  /\ (websocket_accepts host url = true ->
      fst out = Normal tt
      /\ trace (snd out) = [NewWebSocket id url]
      /\ _websocket s' = Some id
      /\ sockets s' !! id = Some (attach_socket seq args)
      /\ (forall i ws, sockets s !! i = Some ws -> sockets s' !! i = Some ws))
  /\ (websocket_accepts host url = false ->
      fst out = Throw
      /\ trace (snd out) = []
      /\ _websocket s' = _websocket s
      /\ sockets s' = sockets s)
  /\ _scopeThreadMapping s' = _scopeThreadMapping s
  /\ _cancellationTokens s' = _cancellationTokens s
  /\ (- 2 ^ 31 <= thingworxPort args < 2 ^ 31 ->
      url =
      (if args_useSSL args then "wss" else "ws") +:+ "://"
      +:+ thingworxDomain args +:+ ":" +:+ pretty (thingworxPort args)
      +:+ "/Thingworx/ThingworxDebugger").
Proof.
  intros url out s' id. subst s' out id url.
  destruct (websocket_accepts host (ws_url (attach_socket seq args))) eqn:Haccepts;
    [rewrite (attach_outcome _ _ _ _ _ Haccepts)
    | rewrite (attach_refused _ _ _ _ _ Haccepts)];
    simpl;
    (split;
     [intros _ name; unfold service_url; simpl; destruct (args_useSSL args); reflexivity |]).
  - split.
    { intros _. split; [reflexivity |]. split; [reflexivity |]. split; [reflexivity |].
      split; [apply list_lookup_middle; reflexivity |].
      intros i ws Hi. apply lookup_app_l_Some. exact Hi. }
    split; [discriminate |].
    split; [reflexivity |]. split; [reflexivity |].
    intros Hport. rewrite (to_int32_small _ Hport). reflexivity.
  - split; [discriminate |].
    split; [intros _; repeat split |].
    split; [reflexivity |]. split; [reflexivity |].
    intros Hport. rewrite (to_int32_small _ Hport). reflexivity.
Qed.

Lemma attach_connection_witness :
  let args := {| thingworxDomain := "localhost"; args_useSSL := false;
                 thingworxAppKey := "X"; thingworxPort := 8015 |} in
  let far := {| thingworxDomain := "localhost"; args_useSSL := false;
                thingworxAppKey := "X"; thingworxPort := 70000 |} in
  let out := handle posix_host silent_target 1 (attach args) new_session in
  let out' := handle refusing_host silent_target 1 (attach far) new_session in
  (trace (snd out) = [NewWebSocket 0 "ws://localhost:8015/Thingworx/ThingworxDebugger"]
   /\ _websocket (this (snd out)) = Some 0%nat)
  /\ (fst out' = Throw /\ trace (snd out') = [] /\ _websocket (this (snd out')) = None).
Proof.
  intros args far out out'. split.
  - destruct (attach_connection posix_host silent_target 1 args new_session)
      as (_ & H & _).
    destruct (H eq_refl) as (_ & Htrace & Hsocket & _).
    split; [exact Htrace | exact Hsocket].
  - destruct (attach_connection refusing_host silent_target 1 far new_session)
      as (_ & _ & H & _).
    destruct (H eq_refl) as (Hthrow & Htrace & Hsocket & _).
    split; [exact Hthrow |]. split; [exact Htrace | exact Hsocket].
Defined.

(** When the socket [attachRequest] created opens, the adapter
    authenticates on it with the app key of the attach request, and does
    nothing else. *)
Theorem attach_then_open host target seq args s :
  websocket_accepts host (ws_url (attach_socket seq args)) = true ->
  let s' := this (snd (handle host target seq (attach args) s)) in
  deliver target (length (sockets s)) Opened s' =
  (Normal tt,
   {| this := s'; response := fresh_response 0;
      trace := [SocketSend (length (sockets s))
                  (VObj [("appKey", VStr (thingworxAppKey args))])] |}).
Proof.
  intros Haccepts s'. subst s'. rewrite (attach_outcome _ _ _ _ _ Haccepts).
  unfold deliver. simpl.
  rewrite list_lookup_middle by reflexivity. reflexivity.
Qed.

Lemma attach_then_open_witness :
  let args := {| thingworxDomain := "localhost"; args_useSSL := false;
                 thingworxAppKey := "X"; thingworxPort := 8015 |} in
  trace (snd (deliver silent_target 0 Opened (attaching silent_target 1 args))) =
  [SocketSend 0 (VObj [("appKey", VStr "X")])].
Proof.
  intros args.
  exact (f_equal (fun out => trace (snd out))
           (attach_then_open posix_host silent_target 1 args new_session eq_refl)).
Defined.

(** A socket error before the first frame fails the attach request with
    the message of the error; once a first frame with an [authenticated]
    property has been handled, whatever its value, socket errors are
    ignored: nothing is sent and the session does not change. *)
Theorem socket_errors target s id ws r message :
  sockets s !! id = Some ws ->
  onmessage ws = AttachHandshake r ->
  (onerror ws = AttachFailed r ->
   deliver target id (Failed message) s =
   (Normal tt,
    {| this := s; response := r;
       trace := [SendErrorResponse r (failure message)] |}))
  /\ (forall m authenticated,
        get m "authenticated" = Some authenticated ->
        let s' := this (snd (deliver target id (MessageReceived (Some m)) s)) in
        deliver target id (Failed message) s' = idle s').
Proof.
  intros Hws Hhandler. split.
  - intros Herror. unfold deliver. rewrite Hws, Herror. reflexivity.
  - intros m authenticated Hget s'.
    assert (s' = with_sockets
                   (alter (with_onerror IgnoreError) id
                      (alter (with_onmessage DidRecieveMessage) id (sockets s))) s) as ->.
    { subst s'. unfold deliver. rewrite Hws, Hhandler.
      destruct (truthy authenticated) eqn:Htruthy.
      - rewrite (handshake_authenticated target id s r m authenticated Hget Htruthy).
        reflexivity.
      - rewrite (handshake_not_authenticated target id s r m authenticated Hget Htruthy).
        reflexivity. }
    unfold deliver, idle. simpl sockets.
    rewrite (swapped_callbacks id _ ws Hws). reflexivity.
Qed.

Lemma socket_errors_witness :
  let args := {| thingworxDomain := "localhost"; args_useSSL := true;
                 thingworxAppKey := "X"; thingworxPort := 443 |} in
  let s := attaching silent_target 4 args in
  trace (snd (deliver silent_target 0 (Failed "ECONNREFUSED") s)) =
  [SendErrorResponse (fresh_response 4) (failure "ECONNREFUSED")].
Proof.
  intros args s.
  destruct (socket_errors silent_target s 0 (attach_socket 4 args) (fresh_response 4)
              "ECONNREFUSED" eq_refl eq_refl) as [H _].
  rewrite (H eq_refl). reflexivity.
Defined.

(** A first frame that does not parse, or that parses to [null]: the
    socket is closed, the session forgets it, and the attach request fails
    with the generic error. *)
Theorem first_frame_unusable target s id ws r data :
  sockets s !! id = Some ws ->
  onmessage ws = AttachHandshake r ->
  data ≫= (fun m => get m "authenticated") = None ->
  deliver target id (MessageReceived data) s =
  (Normal tt,
   {| this := with_websocket None
                (with_sockets (alter with_closed id (sockets s)) s);
      response := r;
      trace := [SocketClose id; SendErrorResponse r (failure unable_to_process)] |}).
Proof.
  intros Hws Hhandler Hdata. unfold deliver. rewrite Hws, Hhandler.
  destruct data as [m|]; [| apply handshake_unparsable].
  simpl in Hdata.
  unfold run, attach_onmessage, try_catch, mbind, M_bind. simpl.
  rewrite Hdata. reflexivity.
Qed.

Lemma first_frame_unusable_witness :
  let args := {| thingworxDomain := "localhost"; args_useSSL := true;
                 thingworxAppKey := "X"; thingworxPort := 443 |} in
  let out := deliver silent_target 0 (MessageReceived (Some VNull))
               (attaching silent_target 4 args) in
  trace (snd out) =
    [SocketClose 0; SendErrorResponse (fresh_response 4) (failure unable_to_process)]
  /\ _websocket (this (snd out)) = None.
Proof.
  intros args out. subst out.
  rewrite (first_frame_unusable silent_target (attaching silent_target 4 args) 0
             (attach_socket 4 args) (fresh_response 4) (Some VNull)
             eq_refl eq_refl eq_refl).
  split; reflexivity.
Defined.

(** ** Disconnecting and cancelling *)

(** [disconnectRequest] tells the target, closes the session's socket if
    it has one and leaves the other sockets alone; whatever becomes of the
    call, it sends no response of any kind to the frontend. *)
Theorem disconnect_closes_socket host target seq s :
  let out := handle host target seq disconnect s in
  fst out = Normal tt
  /\ trace (snd out) =
       Invoke "disconnectDebugger" (VObj []) ::
       match _websocket s with Some id => [SocketClose id] | None => [] end
  /\ (forall id ws, _websocket s = Some id -> sockets s !! id = Some ws ->
                    sockets (this (snd out)) !! id = Some (with_closed ws))
  /\ (forall i, _websocket s <> Some i ->
                sockets (this (snd out)) !! i = sockets s !! i)
  /\ _websocket (this (snd out)) = _websocket s.
Proof.
  intros out.
  assert (out =
          (Normal tt,
           {| this := match _websocket s with
                      | Some id => with_sockets (alter with_closed id (sockets s)) s
                      | None => s
                      end;
              response := fresh_response seq;
              trace := Invoke "disconnectDebugger" (VObj []) ::
                       match _websocket s with
                       | Some id => [SocketClose id]
                       | None => []
                       end |})) as ->.
  { subst out. unfold handle, run. simpl handler.
    unfold disconnectRequest, try_catch, close_own_websocket, mbind, M_bind. simpl.
    destruct (_websocket s); reflexivity. }
  simpl. split; [reflexivity |]. split; [reflexivity |].
  destruct (_websocket s) as [own|] eqn:Hown; simpl.
  - split; [| split; [| exact Hown]].
    + intros id ws [= <-] Hws. rewrite list_lookup_alter, Hws.
      destruct (decide (own = own)); [reflexivity | contradiction].
    + intros i Hi. rewrite list_lookup_alter.
      destruct (decide (own = i)) as [-> | _]; [contradiction | reflexivity].
  - split; [discriminate |]. split; [reflexivity | exact Hown].
Qed.

(** [cancelRequest] records a request id that is not zero and keeps what
    was recorded before; a request id of zero, or none, records nothing.
    It never sends anything. *)
Theorem cancel_records host target seq requestId progressId s :
  let out := handle host target seq (cancel requestId progressId) s in
  let tokens := _cancellationTokens (this (snd out)) in
  fst out = Normal tt
  /\ trace (snd out) = []
  /\ (forall id, requestId = Some id -> id <> 0 ->
        tokens !! id = Some true
        /\ forall other, other <> id -> tokens !! other = _cancellationTokens s !! other)
  /\ (requestId = Some 0 \/ requestId = None -> this (snd out) = s).
Proof.
  intros out tokens. subst tokens out. unfold handle, run. simpl handler.
  unfold cancelRequest.
  destruct requestId as [id|]; simpl.
  - destruct (Z.eqb_spec id 0) as [-> | Hid]; simpl.
    + split; [reflexivity |]. split; [reflexivity |]. split; [| reflexivity].
      intros id [= <-] Hne. contradiction.
    + split; [reflexivity |]. split; [reflexivity |]. split.
      * intros id' [= <-] _. split; [apply lookup_insert_eq |].
        intros other Hother. apply lookup_insert_ne. congruence.
      * intros [[= ->] | H]; [contradiction | discriminate H].
  - split; [reflexivity |]. split; [reflexivity |]. split; [discriminate | reflexivity].
Qed.

Lemma cancel_records_witness :
  _cancellationTokens
    (this (snd (handle posix_host silent_target 9 (cancel (Some 7) None) new_session)))
    !! 7 = Some true.
Proof.
  destruct (cancel_records posix_host silent_target 9 (Some 7) None new_session)
    as (_ & _ & H & _).
  apply (H 7 eq_refl). discriminate.
Defined.

(** ** Requests that do not look at all of their arguments *)

Lemma existsb_eqb_elem_of k (ids : list string) :
  existsb (String.eqb k) ids = bool_decide (k ∈ ids).
Proof.
  induction ids as [|x ids IH]; cbn [existsb].
  - symmetry. apply bool_decide_eq_false, not_elem_of_nil.
  - rewrite IH. destruct (String.eqb_spec k x) as [-> | Hne]; cbn [orb].
    + symmetry. apply bool_decide_eq_true, elem_of_cons. auto.
    + apply bool_decide_ext. rewrite elem_of_cons. intuition congruence.
Qed.

(** [setExceptionBreakPointsRequest] asks the target for the three kinds
    of breaks according to which of the three filter ids occur among the
    filter options; their order, their repetition and any other filter id
    make no difference, and no filter options are as good as an empty
    list. *)
Theorem exception_filters_by_membership host target seq filterOptions s :
  let ids := default [] filterOptions in
  calls (handle host target seq (setExceptionBreakpoints filterOptions) s)
    "setBreakOnExceptions"
    (VObj [("breaks", VBool (bool_decide ("exceptions" ∈ ids)));
           ("caughtExceptions", VBool (bool_decide ("caughtExceptions" ∈ ids)));
           ("uncaughtExceptions", VBool (bool_decide ("uncaughtExceptions" ∈ ids)))])
  /\ forall filterOptions',
       (forall id, id ∈ ["exceptions"; "caughtExceptions"; "uncaughtExceptions"] ->
                   id ∈ ids <-> id ∈ default [] filterOptions') ->
       handle host target seq (setExceptionBreakpoints filterOptions') s =
       handle host target seq (setExceptionBreakpoints filterOptions) s.
Proof.
  intros ids. split.
  - unfold handle, run. simpl handler. unfold setExceptionBreakPointsRequest.
    fold ids. rewrite !existsb_eqb_elem_of.
    apply (remote_handler_invokes target "setBreakOnExceptions" _ _ _ _ []);
      [intros ?; handler_body | reflexivity].
  - intros filterOptions' Hsame.
    unfold handle, run. simpl handler. unfold setExceptionBreakPointsRequest.
    fold ids. rewrite !existsb_eqb_elem_of.
    assert ("exceptions" ∈ ids <-> "exceptions" ∈ default [] filterOptions') as H1
      by (apply Hsame; repeat constructor).
    assert ("caughtExceptions" ∈ ids <-> "caughtExceptions" ∈ default [] filterOptions')
      as H2 by (apply Hsame; repeat constructor).
    assert ("uncaughtExceptions" ∈ ids <-> "uncaughtExceptions" ∈ default [] filterOptions')
      as H3 by (apply Hsame; repeat constructor).
    rewrite (bool_decide_ext _ _ H1), (bool_decide_ext _ _ H2), (bool_decide_ext _ _ H3).
    reflexivity.
Qed.

Lemma exception_filters_by_membership_witness :
  handle posix_host failing_target 2
    (setExceptionBreakpoints (Some ["uncaughtExceptions"; "other"; "uncaughtExceptions"]))
    new_session =
  handle posix_host failing_target 2
    (setExceptionBreakpoints (Some ["uncaughtExceptions"])) new_session.
Proof.
  apply (exception_filters_by_membership posix_host failing_target 2
           (Some ["uncaughtExceptions"]) new_session).
  intros id Hid. simpl.
  rewrite !elem_of_cons, !elem_of_nil in Hid. rewrite !elem_of_cons, !elem_of_nil.
  destruct Hid as [-> | [-> | [-> | []]]]; split; intros H;
    repeat match goal with
           | H : _ \/ _ |- _ => destruct H
           | H : False |- _ => destruct H
           | H : _ = _ |- _ => discriminate H
           end; auto.
Defined.

(** [nextRequest], [stepInRequest] and [stepOutRequest] test
    [singleThread] and then make the same call in both branches: the flag
    has no effect on anything they do. *)
Theorem steps_ignore_singleThread host target seq threadId singleThread singleThread' s :
  handle host target seq (next threadId singleThread) s =
    handle host target seq (next threadId singleThread') s
  /\ handle host target seq (stepIn threadId singleThread) s =
       handle host target seq (stepIn threadId singleThread') s
  /\ handle host target seq (stepOut threadId singleThread) s =
       handle host target seq (stepOut threadId singleThread') s
  /\ calls (handle host target seq (next threadId singleThread) s)
       "stepOverThread" (VObj [("threadID", VNum threadId)])
  /\ calls (handle host target seq (stepIn threadId singleThread) s)
       "stepInThread" (VObj [("threadID", VNum threadId)])
  /\ calls (handle host target seq (stepOut threadId singleThread) s)
       "stepOutThread" (VObj [("threadID", VNum threadId)]).
Proof.
  unfold handle, run. simpl handler.
  unfold nextRequest, stepInRequest, stepOutRequest, step_request.
  repeat split;
    try (destruct (truthy (bool_opt singleThread)),
           (truthy (bool_opt singleThread')); reflexivity);
    destruct (truthy (bool_opt singleThread));
    (eapply (remote_handler_invokes target _ _ _ _ _ []);
       [intros ?; handler_body | reflexivity]).
Qed.

(** ** Breakpoint requests without a usable path *)

(** [breakpointLocationsRequest] on a source without a path, or with an
    empty one: no call is made, and the answer is an empty list of
    locations. *)
Theorem breakpointLocations_without_path host target seq source line column endLine
    endColumn s :
  src_path source = None \/ src_path source = Some "" ->
  let answer := {| request_seq := seq; body := VObj [("breakpoints", VArr [])] |} in
  handle host target seq (breakpointLocations source line column endLine endColumn) s =
  (Normal tt, {| this := s; response := answer; trace := [SendResponse answer] |}).
Proof.
  intros Hpath answer. unfold handle, run. simpl handler.
  unfold breakpointLocationsRequest. destruct Hpath as [-> | ->]; reflexivity.
Qed.

Lemma breakpointLocations_without_path_witness :
  invocations
    (trace (snd (handle windows_host failing_target 6
                   (breakpointLocations {| src_name := Some "a.ts"; src_path := None |}
                      10 None None None)
                   new_session))) = [].
Proof.
  rewrite (breakpointLocations_without_path windows_host failing_target 6
             {| src_name := Some "a.ts"; src_path := None |} 10 None None None
             new_session (or_introl eq_refl)).
  reflexivity.
Defined.

(** [setBreakPointsRequest] on a source without a path, or with an empty
    one.  On Windows there is no first character to uppercase: the request
    fails before any call is made.  Elsewhere the path is passed on as it
    is, undefined or empty. *)
Theorem setBreakpoints_without_path host target seq source breakpoints s :
  src_path source = None \/ src_path source = Some "" ->
  (platform host = "win32" ->
   handle host target seq (setBreakpoints source breakpoints) s =
   (Normal tt,
    {| this := s; response := fresh_response seq;
       trace := [SendErrorResponse (fresh_response seq) (failure unable_to_process)] |}))
  /\ (platform host <> "win32" ->
      calls (handle host target seq (setBreakpoints source breakpoints) s)
        "setBreakpointsForFile"
        (VObj [("path", str_opt (src_path source));
               ("breakpoints", VObj [("breakpoints", breakpoints_value breakpoints)])])).
Proof.
  intros Hpath. split.
  - intros Hwin. unfold handle, run. simpl handler.
    unfold setBreakPointsRequest, normalize_path. rewrite Hwin.
    destruct Hpath as [-> | ->]; reflexivity.
  - intros Hother. unfold handle, run. simpl handler.
    unfold setBreakPointsRequest, normalize_path.
    apply String.eqb_neq in Hother. rewrite Hother.
    apply (remote_handler_invokes target "setBreakpointsForFile" _ _ _ _ []);
      [intros ?; handler_body | reflexivity].
Qed.

Lemma setBreakpoints_without_path_witness :
  invocations
    (trace (snd (handle windows_host (replying_target VNull) 6
                   (setBreakpoints {| src_name := None; src_path := Some "" |} None)
                   new_session))) = [].
Proof.
  destruct (setBreakpoints_without_path windows_host (replying_target VNull) 6
              {| src_name := None; src_path := Some "" |} None new_session
              (or_intror eq_refl)) as [H _].
  rewrite (H eq_refl). reflexivity.
Defined.

(** ** The display name of a source *)

(** The name of a stack frame's source is what follows the last
    separator of the path: it holds no separator, and the path is that name
    behind a prefix that is empty or ends with a separator. *)
Theorem last_component_spec sep s :
  existsb (Ascii.eqb sep) (list_ascii_of_string (last_component sep s)) = false
  /\ exists prefix,
       s = prefix +:+ last_component sep s
       /\ (prefix = "" \/ exists before, prefix = before +:+ String sep "").
Proof.
  induction s as [|c s [IHclean (prefix & IHsplit & IHprefix)]].
  - split; [reflexivity |]. exists "". split; [reflexivity | left; reflexivity].
  - cbn [last_component].
    destruct (Ascii.eqb_spec c sep) as [-> | Hc].
    + split; [exact IHclean |]. exists (String sep prefix).
      split; [rewrite IHsplit at 1; reflexivity |]. right.
      destruct IHprefix as [-> | (before & ->)].
      * exists "". reflexivity.
      * exists (String sep before). reflexivity.
    + destruct (existsb (Ascii.eqb sep) (list_ascii_of_string s)) eqn:Hrest.
      * split; [exact IHclean |]. exists (String c prefix).
        split; [rewrite IHsplit at 1; reflexivity |]. right.
        destruct IHprefix as [-> | (before & ->)].
        -- exfalso. assert (s = last_component sep s) as Hs by exact IHsplit.
           rewrite <- Hs in IHclean. congruence.
        -- exists (String c before). reflexivity.
      * split.
        -- cbn [list_ascii_of_string existsb]. rewrite Hrest, orb_false_r.
           apply Ascii.eqb_neq. congruence.
        -- exists "". split; [reflexivity | left; reflexivity].
Qed.

(** ** What the handlers leave alone *)

Section Preserves.

Variable R : Session -> Session -> Prop.
Hypothesis R_refl : forall s, R s s.
Hypothesis R_trans : forall a b c, R a b -> R b c -> R a c.

Lemma preserves_ret {A} (a : A) : preserves R (mret a).
Proof. intros f. apply R_refl. Qed.

Lemma preserves_throw {A} : preserves R (@throw A).
Proof. intros f. apply R_refl. Qed.

Lemma preserves_lift {A} (o : option A) : preserves R (lift o).
Proof. destruct o; [apply preserves_ret | apply preserves_throw]. Qed.

Lemma preserves_emit a : preserves R (emit a).
Proof. intros f. apply R_refl. Qed.

Lemma preserves_get_this : preserves R get_this.
Proof. intros f. apply R_refl. Qed.

Lemma preserves_get_response : preserves R get_response.
Proof. intros f. apply R_refl. Qed.

Lemma preserves_set_body b : preserves R (set_body b).
Proof. intros f. apply R_refl. Qed.

Lemma preserves_modify_this g : (forall s, R s (g s)) -> preserves R (modify_this g).
Proof. intros Hg f. apply Hg. Qed.

Lemma preserves_bind {A B} (m : M A) (k : A -> M B) :
  preserves R m -> (forall a, preserves R (k a)) -> preserves R (m ≫= k).
Proof.
  intros Hm Hk f. unfold mbind, M_bind. specialize (Hm f).
  destruct (m f) as [[a| |] f1]; simpl in *; [| assumption | assumption].
  eapply R_trans; [exact Hm | apply Hk].
Qed.

Lemma preserves_try_catch {A} (m h : M A) :
  preserves R m -> preserves R h -> preserves R (try_catch m h).
Proof.
  intros Hm Hh f. unfold try_catch. specialize (Hm f).
  destruct (m f) as [[a| |] f1]; simpl in *; [assumption | | assumption].
  eapply R_trans; [exact Hm | apply Hh].
Qed.

Lemma preserves_await (m : M Promise) : preserves R m -> preserves R (await m).
Proof.
  intros Hm f. unfold await. specialize (Hm f).
  destruct (m f) as [[[v| |]| |] f1]; exact Hm.
Qed.

Lemma preserves_each {A} (k : A -> M unit) l :
  (forall x, preserves R (k x)) -> preserves R (each k l).
Proof.
  intros Hk. induction l as [|x l IH]; simpl.
  - apply preserves_ret.
  - apply preserves_bind; [apply Hk | intros _; exact IH].
Qed.

Lemma preserves_for_of v (k : value -> M unit) :
  (forall x, preserves R (k x)) -> preserves R (for_of v k).
Proof.
  intros Hk. unfold for_of.
  apply preserves_bind; [apply preserves_lift | intros items; apply preserves_each, Hk].
Qed.

Lemma preserves_invokeService target n a : preserves R (invokeService target n a).
Proof. intros f. apply R_refl. Qed.

Lemma preserves_sendResponse : preserves R sendResponse.
Proof. intros f. apply R_refl. Qed.

Lemma preserves_sendErrorResponse e : preserves R (sendErrorResponse e).
Proof. intros f. apply R_refl. Qed.

Lemma preserves_sendEvent e : preserves R (sendEvent e).
Proof. intros f. apply R_refl. Qed.

Lemma preserves_body_default d : preserves R (body_default d).
Proof. intros f. apply R_refl. Qed.

Lemma preserves_set_field k v : preserves R (set_field k v).
Proof. intros f. rewrite set_field_this. apply R_refl. Qed.

Lemma preserves_get_field k : preserves R (get_field k).
Proof.
  unfold get_field.
  apply preserves_bind; [apply preserves_get_response | intros r; apply preserves_lift].
Qed.

Lemma preserves_field_default k d : preserves R (field_default k d).
Proof.
  unfold field_default.
  apply preserves_bind; [apply preserves_get_field | intros v; apply preserves_set_field].
Qed.

Lemma preserves_push_field k x : preserves R (push_field k x).
Proof. intros f. rewrite push_field_this. apply R_refl. Qed.

Lemma preserves_copy_first_row result k f : preserves R (copy_first_row result k f).
Proof.
  unfold copy_first_row.
  repeat (apply preserves_bind; [apply preserves_lift | intros ?]).
  apply preserves_set_field.
Qed.

End Preserves.

Create HintDb preserves discriminated.

#[export] Hint Resolve preserves_ret preserves_throw preserves_lift preserves_emit
  preserves_get_this preserves_get_response preserves_set_body
  preserves_invokeService preserves_sendResponse preserves_sendErrorResponse
  preserves_sendEvent preserves_body_default preserves_set_field preserves_get_field
  preserves_field_default preserves_push_field preserves_copy_first_row : preserves.

(** Follows the structure of a body, leaving the updates of the session
    to be examined. *)
Ltac preserves_body :=
  repeat first
    [ solve [auto with preserves]
    | apply preserves_await
    | apply preserves_try_catch
    | apply preserves_for_of; [assumption | assumption | intros ?]
    | apply preserves_each; [assumption | assumption | intros ?]
    | apply preserves_bind; [assumption | | intros ?]
    | apply preserves_modify_this; intros ?
    | match goal with
      | |- preserves _ (if ?b then _ else _) => destruct b
      | |- preserves _ (match ?x with _ => _ end) => destruct x
      end ].

Ltac unfold_handlers :=
  cbv beta iota zeta delta
    [handler initializeRequest configurationDoneRequest attachRequest disconnectRequest
     launchRequest setBreakPointsRequest breakpointLocationsRequest
     setExceptionBreakPointsRequest exceptionInfoRequest threadsRequest
     stackTraceRequest scopesRequest variablesRequest setVariableRequest pauseRequest
     continueRequest reverseContinueRequest nextRequest stepBackRequest
     stepInTargetsRequest stepInRequest stepOutRequest step_request evaluateRequest
     setExpressionRequest dataBreakpointInfoRequest setDataBreakpointsRequest
     completionsRequest cancelRequest disassembleRequest
     setInstructionBreakpointsRequest customRequest
     new_websocket update_socket socket_close close_own_websocket
     attach_onmessage attach_onopen attach_onerror _didRecieveMessageWithEvent
     stack_frame_row].

Lemma same_refl {X} (g : Session -> X) s : same g s s.
Proof. reflexivity. Qed.

Lemma same_trans {X} (g : Session -> X) a b c : same g a b -> same g b c -> same g a c.
Proof. unfold same. congruence. Qed.

Lemma index_towards_refl threadId s : index_towards threadId s s.
Proof. intros key. left. reflexivity. Qed.

Lemma index_towards_trans threadId a b c :
  index_towards threadId a b -> index_towards threadId b c -> index_towards threadId a c.
Proof.
  intros Hab Hbc key. destruct (Hbc key) as [-> | ->]; [apply Hab | right; reflexivity].
Qed.

Lemma callbacks_preserve {X} (g : Session -> X) target id e s :
  (forall w t, g (with_websocket w t) = g t) ->
  (forall l t, g (with_sockets l t) = g t) ->
  g (this (snd (deliver target id e s))) = g s.
Proof.
  intros Hw Hs.
  pose proof (same_refl g) as Hrefl. pose proof (same_trans g) as Htrans.
  unfold deliver.
  destruct (sockets s !! id) as [ws|]; [| reflexivity].
  destruct e as [|data|message].
  - destruct (onopen ws); [reflexivity |].
    apply (preserves_emit (same g) Hrefl).
  - destruct (onmessage ws) as [|r|]; [reflexivity | |].
    + assert (preserves (same g) (attach_onmessage target id data)) as H.
      { unfold_handlers. preserves_body; unfold same; rewrite ?Hw, ?Hs; reflexivity. }
      apply H.
    + assert (preserves (same g) (_didRecieveMessageWithEvent data)) as H.
      { unfold_handlers. preserves_body. }
      apply H.
  - destruct (onerror ws) as [|r|]; [reflexivity | | reflexivity].
    apply (preserves_sendErrorResponse (same g) Hrefl).
Qed.

(** Only [stackTraceRequest] writes the frame index, and all it ever
    writes is its own thread id: any other request, and any socket event,
    leaves the index as it is, whatever the target answers; after a
    [stackTrace] for a thread, answered or failed, every key is mapped as
    before or to that thread. *)
Theorem frame_index_writers host target seq req s :
  let s' := this (snd (handle host target seq req s)) in
  ((forall threadId, req <> stackTrace threadId) ->
   _scopeThreadMapping s' = _scopeThreadMapping s)
  /\ (forall threadId, req = stackTrace threadId -> index_towards threadId s s')
  /\ (forall id e,
        _scopeThreadMapping (this (snd (deliver target id e s))) = _scopeThreadMapping s).
Proof.
  intros s'. subst s'. split; [| split].
  - intros Hother.
    pose proof (same_refl _scopeThreadMapping) as Hrefl.
    pose proof (same_trans _scopeThreadMapping) as Htrans.
    assert (preserves (same _scopeThreadMapping) (handler host target req)) as H.
    { destruct req; try (exfalso; first [exact (Hother _ eq_refl) | exact (Hother _ _ eq_refl)]);
        unfold_handlers; preserves_body; reflexivity. }
    apply H.
  - intros threadId ->.
    pose proof (index_towards_refl threadId) as Hrefl.
    pose proof (index_towards_trans threadId) as Htrans.
    assert (preserves (index_towards threadId) (handler host target (stackTrace threadId)))
      as H.
    { unfold_handlers. preserves_body.
      intros key. simpl. rewrite assign_index_lookup.
      destruct (decide _); [right; reflexivity | left; reflexivity]. }
    apply H.
  - intros id e. apply callbacks_preserve; reflexivity.
Qed.

(** Only [cancelRequest] writes the cancellation tokens, and only
    [attachRequest] writes the connection parameters; socket events write
    neither. *)
Theorem tokens_and_connection_writers host target seq req s :
  let s' := this (snd (handle host target seq req s)) in
  ((forall requestId progressId, req <> cancel requestId progressId) ->
   _cancellationTokens s' = _cancellationTokens s)
  /\ ((forall args, req <> attach args) -> connection s' = connection s)
  /\ (forall id e,
        let s'' := this (snd (deliver target id e s)) in
        _cancellationTokens s'' = _cancellationTokens s
        /\ connection s'' = connection s).
Proof.
  intros s'. subst s'. split; [| split].
  - intros Hother.
    pose proof (same_refl _cancellationTokens) as Hrefl.
    pose proof (same_trans _cancellationTokens) as Htrans.
    assert (preserves (same _cancellationTokens) (handler host target req)) as H.
    { destruct req; try (exfalso; first [exact (Hother _ eq_refl) | exact (Hother _ _ eq_refl)]);
        unfold_handlers; preserves_body; reflexivity. }
    apply H.
  - intros Hother.
    pose proof (same_refl connection) as Hrefl.
    pose proof (same_trans connection) as Htrans.
    assert (preserves (same connection) (handler host target req)) as H.
    { destruct req; try (exfalso; first [exact (Hother _ eq_refl) | exact (Hother _ _ eq_refl)]);
        unfold_handlers; preserves_body; reflexivity. }
    apply H.
  - intros id e s''. subst s''. split; apply callbacks_preserve; reflexivity.
Qed.

(** ** One request, at most one call *)

Lemma remote_single_call target n a (k : value -> M unit) e f :
  (forall v, answers (k v)) ->
  invocations (trace f) = [] ->
  invocations (trace (snd (try_catch (await (invokeService target n a) ≫= k)
                             (sendErrorResponse e) f))) = [Invoke n a].
Proof.
  intros Hk Hf.
  destruct (remote_handler_invokes target n a k e f (trace f) Hk eq_refl)
    as (rest & -> & Hrest).
  rewrite invocations_app, Hf.
  change (invocations (Invoke n a :: rest)) with (Invoke n a :: invocations rest).
  rewrite Hrest. reflexivity.
Qed.

(** Every request makes at most one service call, whatever the target
    answers, and if it makes one it is to the service the request is mapped
    to; a request that is mapped to no service makes no call. *)
Theorem one_call_to_own_service host target seq req s :
  let made := invocations (trace (snd (handle host target seq req s))) in
  made = [] \/ exists n a, service_of req = Some n /\ made = [Invoke n a].
Proof.
  intros made. subst made.
  destruct req; unfold handle, run; simpl handler;
    try (left; reflexivity);
    try (right; eexists _, _; split; [reflexivity |];
         apply remote_single_call; [intros ?; handler_body | reflexivity]).
  - (* attach *)
    left. unfold attachRequest, new_websocket, mbind, M_bind. simpl.
    destruct (websocket_accepts host _); reflexivity.
  - (* disconnect *)
    right. eexists _, _. split; [reflexivity |].
    unfold disconnectRequest, try_catch, close_own_websocket, mbind, M_bind. simpl.
    destruct (_websocket s); reflexivity.
  - (* setBreakpoints *)
    unfold setBreakPointsRequest.
    destruct (normalize_path host (src_path source)) as [path|]; [| left; reflexivity].
    right. eexists _, _. split; [reflexivity |].
    apply (remote_single_call target "setBreakpointsForFile");
      [intros ?; handler_body | reflexivity].
  - (* breakpointLocations *)
    unfold breakpointLocationsRequest.
    destruct (truthy (str_opt (src_path source))); [| left; reflexivity].
    destruct (normalize_path host (src_path source)) as [path|]; [| left; reflexivity].
    right. eexists _, _. split; [reflexivity |].
    apply (remote_single_call target "getBreakpointLocationsInFile" _ _ _
             {| this := s; response := fresh_response seq; trace := [ConsoleLog _] |});
      [intros ?; handler_body | reflexivity].
  - (* continue *)
    right. cbn [service_of]. unfold continueRequest, try_catch, mbind, M_bind.
    destruct (truthy (bool_opt singleThread)); eexists _, _;
      (split; [reflexivity |]);
      rewrite await_invokeService; destruct (settle _); reflexivity.
  - (* next *)
    right. eexists _, _. split; [reflexivity |].
    unfold nextRequest, step_request. destruct (truthy (bool_opt singleThread));
      (apply remote_single_call; [intros ?; handler_body | reflexivity]).
  - (* stepIn *)
    right. eexists _, _. split; [reflexivity |].
    unfold stepInRequest, step_request. destruct (truthy (bool_opt singleThread));
      (apply remote_single_call; [intros ?; handler_body | reflexivity]).
  - (* stepOut *)
    right. eexists _, _. split; [reflexivity |].
    unfold stepOutRequest, step_request. destruct (truthy (bool_opt singleThread));
      (apply remote_single_call; [intros ?; handler_body | reflexivity]).
  - (* evaluate *)
    right. destruct frameId; eexists _, _; (split; [reflexivity |]);
      (apply remote_single_call; [intros ?; handler_body | reflexivity]).
  - (* cancel *)
    left. unfold cancelRequest. destruct requestId as [id|]; [| reflexivity].
    destruct (truthy (VNum id)); reflexivity.
Qed.

(** ** Instances *)

Lemma threads_rows_witness :
  let result := VObj [("rows", VArr [VObj [("ID", VNum 3)]; VObj [("ID", VNum 5)]])] in
  trace (snd (handle posix_host (replying_target result) 2 threads new_session)) =
  [Invoke "getThreads" (VObj []);
   SendResponse
     {| request_seq := 2;
        body := VObj [("threads",
                       VArr [VObj [("id", VNum 3); ("name", VStr "Thread 3")];
                             VObj [("id", VNum 5); ("name", VStr "Thread 5")]])] |}].
Proof.
  intros result.
  rewrite (threads_rows posix_host (replying_target result) 2 new_session result
             [VObj [("ID", VNum 3)]; VObj [("ID", VNum 5)]] [3; 5]
             eq_refl eq_refl).
  - reflexivity.
  - repeat constructor.
  - repeat (constructor; [split; reflexivity |]). constructor.
Defined.

Lemma setBreakpoints_rows_witness :
  let source := {| src_name := None; src_path := Some "c:\proj\a.ts" |} in
  let row := VObj [("verified", VBool true); ("line", VNum 5)] in
  let result := VObj [("rows", VArr [row])] in
  trace (snd (handle windows_host (replying_target result) 2
                (setBreakpoints source (Some [VObj [("line", VNum 5)]])) new_session)) =
  [Invoke "setBreakpointsForFile"
     (VObj [("path", VStr "C:/proj/a.ts");
            ("breakpoints", VObj [("breakpoints", VArr [VObj [("line", VNum 5)]])])]);
   SendResponse
     {| request_seq := 2;
        body := VObj [("breakpoints", VArr [breakpoint_of source row])] |}].
Proof.
  intros source row result.
  rewrite (setBreakpoints_rows windows_host (replying_target result) 2 new_session source
             (Some [VObj [("line", VNum 5)]]) (Some "C:/proj/a.ts") result [row]
             eq_refl eq_refl eq_refl).
  - reflexivity.
  - repeat constructor.
Defined.

Lemma breakpointLocations_rows_witness :
  let source := {| src_name := None; src_path := Some "/srv/a.ts" |} in
  let row := VObj [("line", VNum 5); ("column", VNum 1)] in
  let result := VObj [("rows", VArr [row])] in
  body (response (snd (handle posix_host (replying_target result) 2
                         (breakpointLocations source 5 None None None) new_session))) =
  VObj [("breakpoints", VArr [location_of row])].
Proof.
  intros source row result.
  rewrite (breakpointLocations_rows posix_host (replying_target result) 2 new_session
             source 5 None None None (Some "/srv/a.ts") result [row]
             eq_refl eq_refl eq_refl eq_refl).
  - reflexivity.
  - repeat constructor.
Defined.


Lemma variables_rows_witness :
  let row := VObj [("name", VStr "x"); ("value", VStr "1")] in
  let result := VObj [("rows", VArr [row; VNull])] in
  body (response (snd (handle posix_host (replying_target result) 2
                         (variables 1001 None None None) new_session))) =
  VObj [("variables", VArr [row; VNull])].
Proof.
  intros row result.
  rewrite (variables_rows posix_host (replying_target result) 2 new_session 1001 None
             None None result [row; VNull] eq_refl eq_refl).
  reflexivity.
Defined.


Lemma exceptionInfo_verbatim_witness :
  let details := VObj [("exceptionId", VStr "TypeError"); ("breakMode", VStr "always")] in
  body (response (snd (handle posix_host (replying_target details) 2 (exceptionInfo 7)
                         new_session))) = details.
Proof.
  intros details.
  rewrite (exceptionInfo_verbatim posix_host (replying_target details) 2 new_session 7
             details eq_refl).
  reflexivity.
Defined.


Lemma setVariable_first_row_witness :
  let row := VObj [("value", VStr "2"); ("variablesReference", VNum 0)] in
  let result := VObj [("rows", VArr [row])] in
  body (response (snd (handle posix_host (replying_target result) 2
                         (setVariable 1001 "x" "2") new_session))) =
  VObj [("value", VStr "2"); ("variablesReference", VNum 0); ("type", VUndefined);
        ("indexedVariables", VUndefined); ("namedVariables", VUndefined)].
Proof.
  intros row result.
  rewrite (setVariable_first_row posix_host (replying_target result) 2 new_session 1001
             "x" "2" result row eq_refl eq_refl).
  reflexivity.
Defined.

Lemma no_first_row_fails_witness :
  let result := VObj [("rows", VArr [])] in
  exists n a r e,
    handle posix_host (replying_target result) 2 (evaluate "x" (Some 12)) new_session =
    (Normal tt,
     {| this := new_session; response := r;
        trace := [Invoke n a; SendErrorResponse r (failure e)] |}).
Proof.
  intros result.
  apply (no_first_row_fails posix_host (replying_target result) 2 new_session
           (evaluate "x" (Some 12)) result).
  - left. exists "x", (Some 12). reflexivity.
  - intros url a. reflexivity.
  - reflexivity.
Defined.

Lemma disconnect_closes_socket_witness :
  let args := {| thingworxDomain := "localhost"; args_useSSL := false;
                 thingworxAppKey := "X"; thingworxPort := 8015 |} in
  let out := handle posix_host failing_target 8 disconnect (attaching failing_target 5 args) in
  ws_closed <$> sockets (this (snd out)) !! 0%nat = Some true.
Proof.
  intros args out.
  destruct (disconnect_closes_socket posix_host failing_target 8
              (attaching failing_target 5 args)) as (_ & _ & Hclosed & _).
  fold out in Hclosed.
  rewrite (Hclosed 0%nat (attach_socket 5 args) eq_refl eq_refl). reflexivity.
Defined.

Lemma frame_index_writers_witness :
  let s := with_scopeThreadMapping {["12" := 7]} new_session in
  _scopeThreadMapping
    (this (snd (handle posix_host (replying_target VNull) 3 (scopes 12) s))) =
  {["12" := 7]}.
Proof.
  intros s.
  destruct (frame_index_writers posix_host (replying_target VNull) 3 (scopes 12) s)
    as (H & _).
  apply H. discriminate.
Defined.

Lemma tokens_and_connection_writers_witness :
  let args := {| thingworxDomain := "localhost"; args_useSSL := false;
                 thingworxAppKey := "X"; thingworxPort := 8015 |} in
  let s := attaching failing_target 5 args in
  connection (this (snd (handle posix_host failing_target 8 disconnect s))) =
  (Some "localhost", Some "8015", Some false, Some "X").
Proof.
  intros args s.
  destruct (tokens_and_connection_writers posix_host failing_target 8 disconnect s)
    as (_ & H & _).
  rewrite H; [reflexivity | discriminate].
Defined.
